(** * The dual-learning criterion of pytorch_translate

    A shallow embedding of
    [pytorch_translate/dual_learning/dual_learning_criterion.py]
    (class [UnsupervisedCriterion]) and the properties its specification
    states about it.

    Numbers.  The statistics of the logging records and the rewards are
    embedded as exact rationals ([Q]): [/] is exact division and raises
    on a zero divisor, [==] is numeric equality ([Qeq]); their rounding
    in binary floating point is not modelled.  The maximum output length
    is an integer cut out of a float, so it is computed as the code
    computes it, in binary64 ([PrimFloat]), each operation rounded to
    nearest, and [int(x)] truncates the float's value toward zero.

    Dictionaries are finite maps with string keys ([gmap string _]).

    Exceptions are values of [exn]; a computation that may raise returns
    a [result]. *)

From Stdlib Require Import ZArith QArith Qround Lia Lqa List Floats.
From stdpp Require Import base option list gmap strings fin_maps.

Local Open Scope Q_scope.

(** ** Exceptions and results *)

Inductive exn : Set :=
| IndexError
| KeyError
| TypeError
| AttributeError
| ZeroDivisionError
| OverflowError
| ValueError
| AssertionError.

Inductive result (A : Type) : Type :=
| Ok (a : A)
| Raise (e : exn).
Arguments Ok {A} a.
Arguments Raise {A} e.

#[global] Instance result_ret : MRet result := fun A a => Ok a.

#[global] Instance result_bind : MBind result := fun A B k m =>
  match m with
  | Ok a => k a
  | Raise e => Raise e
  end.

(** ** Python values held by a logging record *)

(** A logging record maps statistic names to numbers; the record that
    [forward] returns nests two such records under ["primal"] and
    ["dual"].  Both shapes are values of [pyval]. *)
#[warnings="-register-all"]
Inductive pyval : Type :=
| PNum (q : Q)
| PDict (d : gmap string pyval).

(** [math.log(2)]: the binary64 number 0x1.62e42fefa39efp-1. *)
Definition math_log2 : Q := 6243314768165359 # 9007199254740992.

(** [a / b] on Python values: a [TypeError] unless both are numbers, a
    [ZeroDivisionError] on a zero divisor. *)
Definition py_truediv (a b : pyval) : result pyval :=
  match a, b with
  | PNum x, PNum y =>
      if Qeq_bool y 0 then Raise ZeroDivisionError else Ok (PNum (x / y))
  | _, _ => Raise TypeError
  end.

(** [a + b] as used by [sum]: both operands are numbers or it is a
    [TypeError]. *)
Definition py_add (a b : pyval) : result pyval :=
  match a, b with
  | PNum x, PNum y => Ok (PNum (x + y))
  | _, _ => Raise TypeError
  end.

(** [a == b].  Numbers compare by value, a number never equals a
    dictionary, and two dictionaries are equal when they have the same
    keys with equal values. *)
Fixpoint py_eq (a b : pyval) : bool :=
  match a, b with
  | PNum x, PNum y => Qeq_bool x y
  | PDict d1, PDict d2 =>
      bool_decide (dom d1 = dom d2)
      && map_fold
           (fun k v acc =>
              acc && match d2 !! k with
                     | Some w => py_eq v w
                     | None => false
                     end)
           true d1
  | _, _ => false
  end.

Definition py_ne (a b : pyval) : bool := negb (py_eq a b).

(** ** [aggregate_logging_outputs] *)

(** [xs[0]] on a Python list. *)
Definition first_item {A} (xs : list A) : result A :=
  match xs with
  | x :: _ => Ok x
  | [] => Raise IndexError
  end.

(** One term of the generator inside [sum]:
    [log[key] if key in log else 0]. *)
Definition nested_term (key : string) (log : pyval) : result pyval :=
  match log with
  | PDict d => Ok (default (PNum 0) (d !! key))
  | PNum _ => Raise TypeError
  end.

(** The inner function [get_logging_output(key)].  It reads
    [logging_outputs[0]] only.  [sum] starts from [0] and adds the terms
    one by one; [map_fold] visits the items in the map's own order,
    Python in insertion order, which gives the same exception and, the
    numbers being exact, an equal sum. *)
Definition get_logging_output
    (logging_outputs : list pyval) (key : string) : result pyval :=
  lo ← first_item logging_outputs;
  match lo with
  | PNum _ => Raise AttributeError
  | PDict d =>
      match d !! key with
      | Some v => Ok v
      | None =>
          map_fold
            (fun _ log acc =>
               s ← acc; t ← nested_term key log; py_add s t)
            (Ok (PNum 0)) d
      end
  end.

Definition aggregate_logging_outputs
    (logging_outputs : list pyval) : result (gmap string pyval) :=
  loss_sum ← get_logging_output logging_outputs "loss";
  ntokens ← get_logging_output logging_outputs "ntokens";
  nsentences ← get_logging_output logging_outputs "nsentences";
  sample_size ← get_logging_output logging_outputs "sample_size";
  q ← py_truediv loss_sum sample_size;
  loss ← py_truediv q (PNum math_log2);
  let agg_output : gmap string pyval :=
    <["sample_size" := sample_size]>
      (<["nsentences" := nsentences]>
         (<["ntokens" := ntokens]> {["loss" := loss]})) in
  if py_ne sample_size ntokens then
    q' ← py_truediv loss_sum ntokens;
    nll_loss ← py_truediv q' (PNum math_log2);
    Ok (<["nll_loss" := nll_loss]> agg_output)
  else Ok agg_output.

(** ** Tensors, dictionaries, samples *)

(** An integer tensor: its shape and its entries in row-major order. *)
Record tensor : Type := Tensor { shape : list nat; data : list Z }.

(** [t.size(1)]. *)
Definition size1 (t : tensor) : result nat :=
  match shape t !! 1%nat with
  | Some c => Ok c
  | None => Raise IndexError
  end.

(** [t[i, :]]: the [i]-th slice along the first dimension of a tensor of
    at least two dimensions, flattened. *)
Definition select_row (t : tensor) (i : nat) : result (list Z) :=
  match shape t with
  | n :: c :: rest =>
      let w := foldr Nat.mul 1%nat (c :: rest) in
      if decide (i < n)%nat
      then Ok (take w (drop (i * w) (data t)))
      else Raise IndexError
  | _ => Raise IndexError
  end.

(** [utils.strip_pad(row, pad)] of fairseq, [row[row.ne(pad)]]: the
    entries different from [pad]. *)
Definition strip_pad (row : list Z) (pad_idx : Z) : list Z :=
  filter (fun x => x <> pad_idx) row.

(** [xs[-1]]. *)
Definition last_item {A} (xs : list A) : result A :=
  match last xs with
  | Some x => Ok x
  | None => Raise IndexError
  end.

(** A vocabulary, through the three lookups the criterion uses. *)
Record dictionary : Type := Dictionary { pad : Z; eos : Z; unk : Z }.

(** One decoder hypothesis: [{"tokens": ..., "score": ...}]. *)
Record hypo : Type := Hypo { tokens : list Z; score : Q }.

(** A pseudo-labelled example:
    [{"id": ..., "source": ..., "target": ..., "weights": ...}]. *)
Record sample : Type :=
  Sample { sample_id : Z; source : list Z; target : list Z; weights : Q }.

(** A collated batch: [s["id"]] and [s["net_input"]]. *)
Record batch : Type := Batch { ids : list Z; net_input : gmap string tensor }.

(** The command-line options the criterion reads.  [max_len_a] and
    [max_len_b] are the binary64 numbers that enter the sum for the
    maximum output length (an integer option enters it as the float of
    the same value). *)
Record args : Type := Args {
  reward_alpha : Q;
  append_eos_to_source : bool;
  beam : Z;
  max_len_a : float;
  max_len_b : float
}.

Record task : Type := Task { use_char_source : bool }.

(** The criterion object, as [__init__] fills it. *)
Record criterion : Type := Criterion {
  self_args : args;
  alpha : Q;
  remove_eos_at_src : bool;
  self_task : task
}.

Definition init (a : args) (t : task) : criterion :=
  {| self_args := a;
     alpha := reward_alpha a;
     remove_eos_at_src := negb (append_eos_to_source a);
     self_task := t |}.

(** Truncation of a rational toward zero. *)
Definition py_int (x : Q) : Z := Z.quot (Qnum x) (Z.pos (Qden x)).

(** [float(z)] of an integer: the nearest binary64 number, a tie going
    to the even one. *)
Definition int_to_float (z : Z) : float :=
  SF2Prim (binary_normalize prec emax z 0 false).

(** The rational a finite float stands for. *)
Definition float_value (x : float) : option Q :=
  match Prim2SF x with
  | S754_zero _ => Some 0
  | S754_finite s m e =>
      Some (inject_Z (if s then Z.neg m else Z.pos m) * Qpower 2 e)
  | S754_infinity _ | S754_nan => None
  end.

(** [int(x)] of a float: its value truncated toward zero; an
    [OverflowError] on an infinity, a [ValueError] on a NaN. *)
Definition py_int_float (x : float) : result Z :=
  match float_value x with
  | Some q => Ok (py_int q)
  | None =>
      match Prim2SF x with
      | S754_nan => Raise ValueError
      | _ => Raise OverflowError
      end
  end.

(** ** The training framework *)

(** What the criterion calls but does not define: the beam-search
    decoder ([pytorch_translate.beam_decode]), batch collation
    ([pytorch_translate.data.weighted_data]), the BLEU scorer
    ([fairseq.bleu]) and the task's weighted loss.  They are parameters
    of the development, each a function of its arguments. *)
Class Framework : Type := {
  model : Type;
  optimizer : Type;
  (** [SequenceGenerator(models=[m], tgt_dict=d).generate(encoder_input,
      beam_size, maxlen)]: one ranked hypothesis list per batch row. *)
  generate :
    model -> dictionary -> gmap string tensor -> Z -> Z -> list (list hypo);
  (** [WeightedLanguagePairDataset.collate(samples, pad_idx, eos_idx)] *)
  collate : list sample -> Z -> Z -> batch;
  (** [bleu.Scorer(pad, eos, unk)], fed (reference, prediction) pairs by
      [add], then [score(order)]. *)
  bleu_score : Z -> Z -> Z -> list (list Z * list Z) -> nat -> Q;
  (** [task.criterion(model, batch)]: loss, sample size, logging
      record. *)
  task_criterion : model -> batch -> Q * Q * pyval
}.

Section Criterion.

Context {F : Framework}.

(** The calls into the framework that change or consult a model, in the
    order they happen. *)
Inductive event : Type :=
| Generate (m : model) (tgt_dict : dictionary)
    (encoder_input : gmap string tensor) (beam_size maxlen : Z)
| Train (m : model)
| Loss (m : model) (b : batch)
| Backward (o : optimizer) (loss : Q).

(** A computation: the calls made so far and how it ended. *)
Record M (A : Type) : Type := MkM { trace : list event; outcome : result A }.
#[global] Arguments MkM {A} trace outcome.
#[global] Arguments trace {A} m.
#[global] Arguments outcome {A} m.

#[global] Instance M_ret : MRet M := fun A a => MkM [] (Ok a).

#[global] Instance M_bind : MBind M := fun A B k m =>
  match outcome m with
  | Ok a => let r := k a in MkM (trace m ++ trace r) (outcome r)
  | Raise e => MkM (trace m) (Raise e)
  end.

Definition emit (e : event) : M unit := MkM [e] (Ok tt).
Definition lift {A} (r : result A) : M A := MkM [] r.
Definition raise {A} (e : exn) : M A := MkM [] (Raise e).

(** ** Generators *)

(** What a generator does when it is iterated: it stops, yields an item
    and goes on, or raises. *)
Inductive gen (A : Type) : Type :=
| GStop
| GYield (a : A) (rest : gen A)
| GRaise (e : exn).
#[global] Arguments GStop {A}.
#[global] Arguments GYield {A} a rest.
#[global] Arguments GRaise {A} e.

(** [for x in g: s = body(x, s)] *)
Fixpoint for_gen {A S} (g : gen A) (body : A -> S -> M S) (s : S) : M S :=
  match g with
  | GStop => mret s
  | GYield a rest => s' ← body a s; for_gen rest body s'
  | GRaise e => raise e
  end.

(** The items a generator yields before it stops or raises. *)
Fixpoint yielded {A} (g : gen A) : list A :=
  match g with
  | GYield a rest => a :: yielded rest
  | _ => []
  end.

(** The generator runs to its end without raising. *)
Fixpoint stops {A} (g : gen A) : Prop :=
  match g with
  | GStop => True
  | GYield _ rest => stops rest
  | GRaise _ => False
  end.

(** The exception a generator ends with, if it raises. *)
Fixpoint raised {A} (g : gen A) : option exn :=
  match g with
  | GStop => None
  | GYield _ rest => raised rest
  | GRaise e => Some e
  end.

(** The exception met when a generator function is called and its
    generator iterated to the end: the one of the part that runs before
    the first [yield], or the one the generator ends with. *)
Definition iteration_failure {A} (c : M (gen A)) : option exn :=
  match outcome c with
  | Raise e => Some e
  | Ok g => raised g
  end.

(** ** [_generate_translation] *)

(** What the generator yields: [id, src, hypos[i]]. *)
Definition item : Type := Z * list Z * list hypo.

(** The loop [for i, id in enumerate(s["id"])] from index [i] on. *)
Fixpoint yield_items (src_tokens : tensor) (pad_idx : Z)
    (hypos : list (list hypo)) (i : nat) (ids : list Z) : gen item :=
  match ids with
  | [] => GStop
  | id :: ids' =>
      match select_row src_tokens i with
      | Raise e => GRaise e
      | Ok row =>
          let src := strip_pad row pad_idx in
          match hypos !! i with
          | None => GRaise IndexError
          | Some h =>
              GYield (id, src, h)
                (yield_items src_tokens pad_idx hypos (S i) ids')
          end
      end
  end.

(** The keys of [net_input] that are passed on to the encoder. *)
Definition encoder_keys (use_char : bool) : list string :=
  if use_char
  then ["src_tokens"; "src_lengths"; "char_inds"; "word_lengths"]
  else ["src_tokens"; "src_lengths"].

(** [self.args.max_len_a * srclen + self.args.max_len_b], in binary64:
    the integer [srclen] is converted, the product is rounded, the sum
    is rounded. *)
Definition scaled_len (a : args) (srclen : nat) : float :=
  (max_len_a a * int_to_float (Z.of_nat srclen) + max_len_b a)%float.

(** [maxlen=int(self.args.max_len_a * srclen + self.args.max_len_b)] *)
Definition maxlen_of (a : args) (srclen : nat) : result Z :=
  py_int_float (scaled_len a srclen).

Definition generate_translation (self : criterion) (m : model)
    (tgt_dict : dictionary) (s : batch) : M (gen item) :=
  let input := net_input s in
  src_tokens ←
    lift (match input !! "src_tokens" with
          | Some t => Ok t
          | None => Raise KeyError
          end);
  srclen ← lift (size1 src_tokens);
  let encoder_input :=
    filter (fun kv => kv.1 ∈ encoder_keys (use_char_source (self_task self)))
      input in
  let beam_size := beam (self_args self) in
  maxlen ← lift (maxlen_of (self_args self) srclen);
  _ ← emit (Generate m tgt_dict encoder_input beam_size maxlen);
  let hypos := generate m tgt_dict encoder_input beam_size maxlen in
  mret (yield_items src_tokens (pad tgt_dict) hypos 0 (ids s)).

(** ** [forward] *)

(** [lm_score = 0.5], the stand-in for a language-model score. *)
Definition lm_score : Q := 1 # 2.

(** Lines 101-106: the original source gets an end-of-sequence token
    unless its last token already is one. *)
Definition append_eos (original_src : list Z) (eos_index : Z)
    : result (list Z) :=
  t ← last_item original_src;
  if decide (t <> eos_index)
  then Ok (original_src ++ [eos_index])
  else Ok original_src.

(** Lines 107-109: [bt_src[:-1]] when the flag is set. *)
Definition strip_eos (self : criterion) (bt_src : list Z) : list Z :=
  if remove_eos_at_src self then removelast bt_src else bt_src.

(** Lines 99-115: the backward-direction sample of one decoded
    example. *)
Definition make_backward_sample (self : criterion) (eos_index : Z)
    (it : item) : result sample :=
  let '(id, src, hypos) := it in
  h ← first_item hypos;
  let bt_src := tokens h in
  original_src ← append_eos src eos_index;
  let bt_src := strip_eos self bt_src in
  Ok {| sample_id := id;
        source := bt_src;
        target := original_src;
        weights := 1 - alpha self |}.

(** Lines 128-131: the scorer is fed one pair per reconstruction. *)
Definition add_reconstruction (original_src : list Z) (it : item)
    (pairs : list (list Z * list Z)) : M (list (list Z * list Z)) :=
  let '(_, _, x_hypos) := it in
  x ← lift (first_item x_hypos);
  let x_hat := removelast (tokens x) in
  mret (pairs ++ [(original_src, x_hat)]).

(** Lines 117-132: decode the backward sample with the backward model
    and score the reconstruction against the original source. *)
Definition backward_reward_of (self : criterion) (backward_model : model)
    (src_dict : dictionary) (backward_sample : sample) : M Q :=
  let bwd_model_input :=
    collate [backward_sample] (pad src_dict) (eos src_dict) in
  reconstructed_source ←
    generate_translation self backward_model src_dict bwd_model_input;
  pairs ←
    for_gen reconstructed_source
      (add_reconstruction (target backward_sample)) [];
  mret (bleu_score (pad src_dict) (eos src_dict) (unk src_dict) pairs 4
        / 100).

(** Lines 134-136. *)
Definition total_reward_of (self : criterion) (forward_reward
    backward_reward : Q) : Q :=
  alpha self * forward_reward + (1 - alpha self) * backward_reward.

(** The body of the loop over the decoded examples (lines 96-150); the
    state is [(forward_samples, backward_samples)]. *)
Definition reward_step (self : criterion) (tgt_dict : dictionary)
    (backward_model : model) (src_dict : dictionary) (it : item)
    (st : list sample * list sample) : M (list sample * list sample) :=
  let '(forward_samples, backward_samples) := st in
  let '(id, src, hypos) := it in
  let eos_index := eos tgt_dict in
  let forward_reward := lm_score in
  backward_sample ← lift (make_backward_sample self eos_index it);
  let backward_samples := backward_samples ++ [backward_sample] in
  backward_reward ←
    backward_reward_of self backward_model src_dict backward_sample;
  let total_reward := total_reward_of self forward_reward backward_reward in
  h ← lift (first_item hypos);
  t ← lift (last_item (tokens h));
  if decide (t = eos_index) then
    mret (forward_samples
            ++ [{| sample_id := id;
                   source := src;
                   target := tokens h;
                   weights := total_reward |}],
          backward_samples)
  else raise AssertionError.

(** Lines 85-150: decode the batch with the forward model and run the
    loop. *)
Definition reward_loop (self : criterion) (s : batch)
    (forward_model : model) (tgt_dict : dictionary)
    (backward_model : model) (src_dict : dictionary)
    : M (list sample * list sample) :=
  nbest_translations ← generate_translation self forward_model tgt_dict s;
  for_gen nbest_translations
    (reward_step self tgt_dict backward_model src_dict) ([], []).

(** Lines 152-189: both lists are collated and handed to the task's
    criterion, each loss is sent back through its optimizer. *)
Definition forward (self : criterion) (s : batch)
    (forward_model : model) (forward_optimizer : optimizer)
    (tgt_dict : dictionary)
    (backward_model : model) (backward_optimizer : optimizer)
    (src_dict : dictionary) : M (Q * Q * pyval) :=
  '(forward_samples, backward_samples) ←
    reward_loop self s forward_model tgt_dict backward_model src_dict;
  let agg_loss := 0 in
  let agg_sample_size := 0 in
  let agg_logging_output : gmap string pyval := ∅ in
  _ ← emit (Train forward_model);
  let fwd_batch := collate forward_samples (pad tgt_dict) (eos tgt_dict) in
  _ ← emit (Loss forward_model fwd_batch);
  let '(forward_loss, sample_size, logging_output) :=
    task_criterion forward_model fwd_batch in
  let agg_loss := agg_loss + forward_loss in
  let agg_sample_size := agg_sample_size + sample_size in
  let agg_logging_output := <["primal" := logging_output]> agg_logging_output in
  _ ← emit (Backward forward_optimizer forward_loss);
  _ ← emit (Train backward_model);
  let bwd_batch := collate backward_samples (pad src_dict) (eos src_dict) in
  _ ← emit (Loss backward_model bwd_batch);
  let '(backward_loss, sample_size, logging_output) :=
    task_criterion backward_model bwd_batch in
  let agg_loss := agg_loss + backward_loss in
  let agg_sample_size := agg_sample_size + sample_size in
  let agg_logging_output := <["dual" := logging_output]> agg_logging_output in
  _ ← emit (Backward backward_optimizer backward_loss);
  mret (agg_loss, agg_sample_size, PDict agg_logging_output).

(** ** Vocabulary of the statements *)

(** The maximum output length a decoder call was given. *)
Definition event_maxlen (e : event) : option Z :=
  match e with
  | Generate _ _ _ _ maxlen => Some maxlen
  | _ => None
  end.

(** The top-ranked hypothesis of a decoded example. *)
Definition top_hypothesis (it : item) : option hypo := head it.2.

(** The top-ranked hypothesis of a decoded example ends with
    [eos_index]. *)
Definition top_ends_with (eos_index : Z) (it : item) : Prop :=
  exists h, top_hypothesis it = Some h /\ last (tokens h) = Some eos_index.

(** The backward sample of a decoded example can be built, decoded by
    the backward model and scored without an exception. *)
Definition scorable (self : criterion) (tgt_dict : dictionary)
    (backward_model : model) (src_dict : dictionary) (it : item) : Prop :=
  exists b br,
    make_backward_sample self (eos tgt_dict) it = Ok b
    /\ outcome (backward_reward_of self backward_model src_dict b) = Ok br.

(** The event is a call of the decoder. *)
Definition is_decoder_call (e : event) : Prop :=
  match e with
  | Generate _ _ _ _ _ => True
  | _ => False
  end.

(** The event is a call of the decoder for model [m] and vocabulary [d]
    with the beam width of the options. *)
Definition decoder_call_of (self : criterion) (m : model) (d : dictionary)
    (e : event) : Prop :=
  exists enc ml, e = Generate m d enc (beam (self_args self)) ml.

(** The parts of a decoded example. *)
Definition item_id (it : item) : Z := it.1.1.
Definition item_src (it : item) : list Z := it.1.2.
Definition item_hypos (it : item) : list hypo := it.2.

(** The forward sample [f] and the backward sample [b] are the ones a
    turn of the loop builds from the decoded example [it]. *)
Definition built_from (self : criterion) (tgt_dict : dictionary)
    (backward_model : model) (src_dict : dictionary)
    (it : item) (f b : sample) : Prop :=
  exists h br,
    make_backward_sample self (eos tgt_dict) it = Ok b
    /\ outcome (backward_reward_of self backward_model src_dict b) = Ok br
    /\ top_hypothesis it = Some h
    /\ last (tokens h) = Some (eos tgt_dict)
    /\ f = {| sample_id := item_id it;
              source := item_src it;
              target := tokens h;
              weights := total_reward_of self lm_score br |}.

(** The six calls that follow the loop. *)
Definition training_calls (forward_model : model)
    (forward_optimizer : optimizer) (tgt_dict : dictionary)
    (backward_model : model) (backward_optimizer : optimizer)
    (src_dict : dictionary) (fs bs : list sample) : list event :=
  let fwd_batch := collate fs (pad tgt_dict) (eos tgt_dict) in
  let bwd_batch := collate bs (pad src_dict) (eos src_dict) in
  [Train forward_model;
   Loss forward_model fwd_batch;
   Backward forward_optimizer (task_criterion forward_model fwd_batch).1.1;
   Train backward_model;
   Loss backward_model bwd_batch;
   Backward backward_optimizer
     (task_criterion backward_model bwd_batch).1.1].

End Criterion.

(** ** Reference definitions, in the words of the specification *)

(** Python's [round(x)]: the nearest integer, a tie going to the even
    one. *)
Definition py_round (x : Q) : Z :=
  let f := Qfloor x in
  match (x - inject_Z f ?= 1 # 2)%Q with
  | Lt => f
  | Gt => (f + 1)%Z
  | Eq => if Z.even f then f else (f + 1)%Z
  end.

(** The contribution of one sub-record to a statistic: its value, [0]
    when the key is missing. *)
Definition field_of (key : string) (log : pyval) : Q :=
  match log with
  | PDict d =>
      match d !! key with
      | Some (PNum q) => q
      | _ => 0
      end
  | PNum _ => 0
  end.

(** The contribution of one worker's record: the field itself for a flat
    record, the sum over its sub-records for a nested one. *)
Definition worker_total (key : string) (lo : pyval) : Q :=
  match lo with
  | PDict d =>
      match d !! key with
      | Some (PNum q) => q
      | Some (PDict _) => 0
      | None => map_fold (fun _ log acc => acc + field_of key log) 0 d
      end
  | PNum _ => 0
  end.

(** The sum of a statistic across all workers' records. *)
Definition sum_across_workers (key : string) (los : list pyval) : Q :=
  foldr (fun lo acc => worker_total key lo + acc) 0 los.

(** Every value of a nested record is a sub-record, and what a
    sub-record holds under [key] is a number. *)
Definition numeric_subrecords (key : string) (d : gmap string pyval) : Prop :=
  map_Forall
    (fun _ log =>
       exists d', log = PDict d'
                  /\ forall v, d' !! key = Some v -> exists q, v = PNum q)
    d.

(** A value that makes the sum over the items of a record fail when
    [key] is looked up: a number where a sub-record is expected, or a
    sub-record that holds a record under [key]. *)
Definition not_summable (key : string) (v : pyval) : Prop :=
  match v with
  | PNum _ => True
  | PDict d' => exists d'', d' !! key = Some (PDict d'')
  end.

(** ** Concrete inputs *)

(** [{"loss": l, "ntokens": n, "nsentences": k, "sample_size": s}] *)
Definition flat_record (l n k s : Q) : pyval :=
  PDict (<["sample_size" := PNum s]>
           (<["nsentences" := PNum k]>
              (<["ntokens" := PNum n]> {["loss" := PNum l]}))).

(** [{"primal": p, "dual": d}] *)
Definition nested_record (p d : pyval) : pyval :=
  PDict (<["dual" := d]> {["primal" := p]}).

(** The records of two data-parallel workers. *)
Definition two_workers : list pyval :=
  [flat_record 20 10 2 10; flat_record 6 2 1 2].

(** A small framework to run the criterion on: the forward model
    [FwdGood] ranks a hypothesis that ends with end-of-sequence above one
    that does not, [FwdBad] returns a single hypothesis without it, and
    the backward model [Bwd] always reconstructs the same sentence. *)
Inductive toy_model : Set := FwdGood | FwdBad | Bwd.

Definition toy_rows (enc : gmap string tensor) : nat :=
  match enc !! "src_tokens" with
  | Some t => default 0%nat (shape t !! 0%nat)
  | None => 0%nat
  end.

Definition toy_generate (m : toy_model) (d : dictionary)
    (enc : gmap string tensor) (beam_size maxlen : Z) : list (list hypo) :=
  replicate (toy_rows enc)
    match m with
    | FwdGood => [Hypo [7; eos d]%Z (-1 # 2); Hypo [8; 9]%Z (-1)]
    | FwdBad => [Hypo [7; 9]%Z (-1 # 2)]
    | Bwd => [Hypo [5; 6; eos d]%Z (-1 # 4)]
    end.

(** Right-padded collation of the sources. *)
Definition toy_collate (samples : list sample) (pad_idx eos_idx : Z)
    : batch :=
  let w := foldr Nat.max 0%nat (map (fun x => length (source x)) samples) in
  let row x := source x ++ replicate (w - length (source x)) pad_idx in
  Batch (map sample_id samples)
    (<["src_lengths" :=
         Tensor [length samples]
           (map (fun x => Z.of_nat (length (source x))) samples)]>
       {["src_tokens" :=
           Tensor [length samples; w] (concat (map row samples))]}).

Definition toy_bleu (pad_idx eos_idx unk_idx : Z)
    (pairs : list (list Z * list Z)) (order : nat) : Q :=
  if forallb (fun rp => bool_decide (removelast rp.1 = rp.2)) pairs
  then 100 else 40.

Definition toy_criterion (m : toy_model) (b : batch) : Q * Q * pyval :=
  let n := inject_Z (Z.of_nat (length (ids b))) in
  (3 * n, n, flat_record (3 * n) n n n).

Definition toy : Framework :=
  {| model := toy_model;
     optimizer := unit;
     generate := toy_generate;
     collate := toy_collate;
     bleu_score := toy_bleu;
     task_criterion := toy_criterion |}.

Definition toy_dict : dictionary := {| pad := 1; eos := 2; unk := 3 |}.

(** [reward_alpha = 0.5], [append_eos_to_source] off, [beam = 2],
    [max_len_a = 1.25], [max_len_b = 0]. *)
Definition toy_args : args :=
  {| reward_alpha := 1 # 2;
     append_eos_to_source := false;
     beam := 2;
     max_len_a := 1.25%float;
     max_len_b := 0%float |}.

Definition toy_self : criterion := init toy_args (Task false).

(** The rational that the float [3.75] stands for, as its mantissa and
    exponent give it: [1.25 * 3 + 0] for the three columns of
    [toy_batch]. *)
Definition toy_scaled_len : Q := 8444249301319680 # 2251799813685248.

(** Two sentences, [4 5 6] and [4 5], padded to length three. *)
Definition toy_batch : batch :=
  Batch [0; 1]%Z
    (<["src_lengths" := Tensor [2%nat] [3; 2]%Z]>
       {["src_tokens" := Tensor [2%nat; 3%nat] [4; 5; 6; 4; 5; 1]%Z]}).

(** What the forward models decode for the first sentence of
    [toy_batch]. *)
Definition toy_item_good : item :=
  (0%Z, [4; 5; 6]%Z, [Hypo [7; 2]%Z (-1 # 2); Hypo [8; 9]%Z (-1)]).

Definition toy_item_bad : item :=
  (0%Z, [4; 5; 6]%Z, [Hypo [7; 9]%Z (-1 # 2)]).

(** The reward of a reconstruction that scores 40. *)
Definition toy_reward : Q := (1 # 2) * (1 # 2) + (1 - (1 # 2)) * (40 / 100).

(** The samples the loop builds from [toy_batch] with [FwdGood]. *)
Definition toy_forward_samples : list sample :=
  [Sample 0 [4; 5; 6]%Z [7; 2]%Z toy_reward;
   Sample 1 [4; 5]%Z [7; 2]%Z toy_reward].

Definition toy_backward_samples : list sample :=
  [Sample 0 [7]%Z [4; 5; 6; 2]%Z (1 - (1 # 2));
   Sample 1 [7]%Z [4; 5; 2]%Z (1 - (1 # 2))].

(** A batch whose [net_input] has no ["src_tokens"], a batch whose
    ["src_tokens"] has one dimension only, and a batch without
    sentences. *)
Definition toy_batch_no_tokens : batch :=
  Batch [0]%Z {["src_lengths" := Tensor [1%nat] [3]%Z]}.

Definition toy_batch_flat_tokens : batch :=
  Batch [0]%Z {["src_tokens" := Tensor [3%nat] [4; 5; 6]%Z]}.

Definition toy_batch_empty : batch :=
  Batch [] {["src_tokens" := Tensor [0%nat; 0%nat] []]}.


(** Options with the given [max_len_a] and [max_len_b]. *)
Definition args_of_lengths (a b : float) : args :=
  {| reward_alpha := 1 # 2;
     append_eos_to_source := false;
     beam := 2;
     max_len_a := a;
     max_len_b := b |}.

(** What is returned for
    [{"loss": 20, "ntokens": 10, "nsentences": 2, "sample_size": 8}]. *)
Definition toy_agg_output : gmap string pyval :=
  <["nll_loss" := PNum (20 / 10 / math_log2)]>
    (<["sample_size" := PNum 8]>
       (<["nsentences" := PNum 2]>
          (<["ntokens" := PNum 10]>
             {["loss" := PNum (20 / 8 / math_log2)]}))).


(** * Properties of [aggregate_logging_outputs] *)

(** Closed goals are settled by evaluation. *)
Ltac by_eval := vm_compute; reflexivity.

Lemma bind_Ok {A B} (m : result A) (k : A -> result B) a :
  m = Ok a -> (m ≫= k) = k a.
Proof. intros ->. reflexivity. Qed.

Lemma bind_Raise {A B} (m : result A) (k : A -> result B) e :
  m = Raise e -> (m ≫= k) = Raise e.
Proof. intros ->. reflexivity. Qed.

(** Only the first record is read. *)
Lemma get_logging_output_first_only lo rest key :
  get_logging_output (lo :: rest) key = get_logging_output [lo] key.
Proof. reflexivity. Qed.

Lemma aggregate_logging_outputs_first_only lo rest :
  aggregate_logging_outputs (lo :: rest) = aggregate_logging_outputs [lo].
Proof. reflexivity. Qed.

Lemma aggregate_logging_outputs_empty :
  aggregate_logging_outputs [] = Raise IndexError.
Proof. reflexivity. Qed.

Lemma py_truediv_num x y :
  ~ y == 0 -> py_truediv (PNum x) (PNum y) = Ok (PNum (x / y)).
Proof.
  intros Hy. unfold py_truediv.
  destruct (Qeq_bool y 0) eqn:E; [|reflexivity].
  apply Qeq_bool_iff in E. contradiction.
Qed.

Lemma py_truediv_zero x y :
  y == 0 -> py_truediv (PNum x) (PNum y) = Raise ZeroDivisionError.
Proof.
  intros Hy. unfold py_truediv.
  apply Qeq_bool_iff in Hy. rewrite Hy. reflexivity.
Qed.

Lemma math_log2_nonzero : ~ math_log2 == 0.
Proof. unfold math_log2. intros H. discriminate H. Qed.

Lemma py_ne_num x y : py_ne (PNum x) (PNum y) = true <-> ~ x == y.
Proof.
  unfold py_ne. simpl. rewrite negb_true_iff.
  rewrite <- not_true_iff_false, Qeq_bool_iff. reflexivity.
Qed.

(** A flat record gives the field itself. *)
Lemma get_logging_output_flat d rest key v :
  d !! key = Some v -> get_logging_output (PDict d :: rest) key = Ok v.
Proof. intros H. unfold get_logging_output. simpl. by rewrite H. Qed.

(** A flat record that lacks the key is searched like a nested one, and
    its numbers are not sub-records. *)
Example get_logging_output_flat_missing :
  get_logging_output [PDict {["loss" := PNum 20]}] "ntokens"
  = Raise TypeError.
Proof. by_eval. Qed.

(** The sum over the sub-records of a nested record, item by item. *)
Lemma sum_subrecords key (l : list (string * pyval)) :
  Forall
    (fun kv =>
       exists d', kv.2 = PDict d'
                  /\ forall v, d' !! key = Some v -> exists q, v = PNum q)
    l ->
  exists q,
    foldr
      (uncurry (fun (_ : string) log acc =>
                  s ← acc; t ← nested_term key log; py_add s t))
      (Ok (PNum 0)) l
    = Ok (PNum q)
    /\ q == foldr
              (uncurry (fun (_ : string) log acc => acc + field_of key log))
              0 l.
Proof.
  induction 1 as [|[k log] l (d' & Hlog & Hnum) _ (q & IHq & IHeq)].
  - exists 0. split; reflexivity.
  - simpl in Hlog. subst log. simpl. rewrite IHq. simpl.
    destruct (d' !! key) as [v|] eqn:Hv; simpl.
    + destruct (Hnum v eq_refl) as [x ->]. simpl.
      exists (q + x). split; [reflexivity|]. by rewrite IHeq.
    + exists (q + 0). split; [reflexivity|]. by rewrite IHeq.
Qed.

(** With the record of a single worker, nested as [forward] returns it,
    the total of a statistic is the sum over the sub-records, a missing
    key counting for [0]. *)
Lemma get_logging_output_nested d key :
  d !! key = None ->
  numeric_subrecords key d ->
  exists q,
    get_logging_output [PDict d] key = Ok (PNum q)
    /\ q == sum_across_workers key [PDict d].
Proof.
  intros Hkey Hsub. unfold get_logging_output, sum_across_workers.
  simpl. rewrite Hkey. rewrite !map_fold_foldr.
  destruct (sum_subrecords key (map_to_list d)) as (q & Hq & Heq).
  { apply map_Forall_to_list in Hsub.
    eapply Forall_impl; [exact Hsub|]. by intros [k log]. }
  exists q. split; [exact Hq|]. rewrite Heq. ring.
Qed.

Lemma get_logging_output_nested_witness :
  exists q,
    get_logging_output
      [PDict (<["dual" := flat_record 6 2 1 2]>
                {["primal" := flat_record 20 10 2 10]})] "ntokens"
    = Ok (PNum q)
    /\ q == sum_across_workers "ntokens"
              [PDict (<["dual" := flat_record 6 2 1 2]>
                        {["primal" := flat_record 20 10 2 10]})].
Proof.
  apply (get_logging_output_nested
           (<["dual" := flat_record 6 2 1 2]>
              {["primal" := flat_record 20 10 2 10]}) "ntokens").
  - by_eval.
  - apply map_Forall_insert_2; [|apply map_Forall_singleton];
      (eexists; split; [reflexivity|]);
      intros v Hv; vm_compute in Hv; injection Hv as <-; eexists;
      reflexivity.
Defined.

(** The record that is returned when no division fails. *)
Lemma aggregate_logging_outputs_ok los l n ns ss :
  get_logging_output los "loss" = Ok (PNum l) ->
  get_logging_output los "ntokens" = Ok (PNum n) ->
  get_logging_output los "nsentences" = Ok ns ->
  get_logging_output los "sample_size" = Ok (PNum ss) ->
  ~ ss == 0 ->
  (~ ss == n -> ~ n == 0) ->
  aggregate_logging_outputs los =
    let agg_output : gmap string pyval :=
      <["sample_size" := PNum ss]>
        (<["nsentences" := ns]>
           (<["ntokens" := PNum n]>
              {["loss" := PNum (l / ss / math_log2)]})) in
    if Qeq_bool ss n then Ok agg_output
    else Ok (<["nll_loss" := PNum (l / n / math_log2)]> agg_output).
Proof.
  intros Hl Hn Hns Hss Hss0 Hn0. unfold aggregate_logging_outputs.
  rewrite (bind_Ok _ _ _ Hl), (bind_Ok _ _ _ Hn), (bind_Ok _ _ _ Hns),
    (bind_Ok _ _ _ Hss).
  rewrite (bind_Ok _ _ _ (py_truediv_num l ss Hss0)).
  rewrite (bind_Ok _ _ _ (py_truediv_num _ _ math_log2_nonzero)).
  cbv zeta. unfold py_ne. cbn [py_eq].
  destruct (Qeq_bool ss n) eqn:E; cbn [negb]; [reflexivity|].
  assert (Hne : ~ ss == n).
  { intros H. apply Qeq_bool_iff in H. congruence. }
  rewrite (bind_Ok _ _ _ (py_truediv_num l n (Hn0 Hne))).
  rewrite (bind_Ok _ _ _ (py_truediv_num _ _ math_log2_nonzero)).
  reflexivity.
Qed.

(** C1 (evaluation at the failing input).  With the records of two
    workers the totals are those of the first record alone, not the sums
    across the workers. *)
Theorem aggregate_two_workers :
  get_logging_output two_workers "loss" = Ok (PNum 20)
  /\ sum_across_workers "loss" two_workers == 26
  /\ exists out,
       aggregate_logging_outputs two_workers = Ok out
       /\ out !! "ntokens" = Some (PNum 10)
       /\ sum_across_workers "ntokens" two_workers == 12
       /\ out !! "nsentences" = Some (PNum 2)
       /\ sum_across_workers "nsentences" two_workers == 3
       /\ out !! "sample_size" = Some (PNum 10)
       /\ sum_across_workers "sample_size" two_workers == 12.
Proof.
  split; [by_eval|]. split; [by_eval|].
  eexists. split.
  - rewrite (aggregate_logging_outputs_ok two_workers 20 10 (PNum 2) 10);
      [reflexivity | by_eval | by_eval | by_eval | by_eval
      | intros H; discriminate H | intros H; exfalso; apply H; reflexivity].
  - repeat split; by_eval.
Qed.

(** C5.  When the four statistics are numbers, the sample size is not
    zero and, if it differs from the token count, the token count is not
    zero either, a record is returned: its ["loss"] is
    [loss_sum / sample_size / math.log(2)], it has the key ["nll_loss"]
    exactly when the sample size differs from the token count, and then
    ["nll_loss"] is [loss_sum / ntokens / math.log(2)]. *)
Theorem aggregate_nll_loss_iff los l n ns ss :
  get_logging_output los "loss" = Ok (PNum l) ->
  get_logging_output los "ntokens" = Ok (PNum n) ->
  get_logging_output los "nsentences" = Ok ns ->
  get_logging_output los "sample_size" = Ok (PNum ss) ->
  ~ ss == 0 ->
  (~ ss == n -> ~ n == 0) ->
  exists out : gmap string pyval,
    aggregate_logging_outputs los = Ok out
    /\ out !! "loss" = Some (PNum (l / ss / math_log2))
    /\ (is_Some (out !! "nll_loss") <-> ~ ss == n)
    /\ (~ ss == n ->
        out !! "nll_loss" = Some (PNum (l / n / math_log2))).
Proof.
  intros Hl Hn Hns Hss Hss0 Hn0.
  rewrite (aggregate_logging_outputs_ok los l n ns ss) by assumption.
  cbv zeta. destruct (Qeq_bool ss n) eqn:E.
  - apply Qeq_bool_iff in E. eexists. split; [reflexivity|].
    split; [by simplify_map_eq|]. split; [|tauto].
    split; [|tauto]. simplify_map_eq. intros [x Hx]. discriminate Hx.
  - assert (Hne : ~ ss == n).
    { intros H. apply Qeq_bool_iff in H. congruence. }
    eexists. split; [reflexivity|].
    split; [by simplify_map_eq|]. split.
    + simplify_map_eq. split; [tauto|]. intros _. eexists; reflexivity.
    + intros _. by simplify_map_eq.
Qed.

(** The two aggregations the specification works out by hand. *)
Lemma aggregate_nll_loss_iff_witness :
  exists out : gmap string pyval,
    aggregate_logging_outputs [flat_record 20 10 2 8] = Ok out
    /\ out !! "loss" = Some (PNum (20 / 8 / math_log2))
    /\ (is_Some (out !! "nll_loss") <-> ~ 8 == 10)
    /\ (~ 8 == 10 ->
        out !! "nll_loss" = Some (PNum (20 / 10 / math_log2))).
Proof.
  apply (aggregate_nll_loss_iff [flat_record 20 10 2 8] 20 10 (PNum 2) 8).
  - by_eval.
  - by_eval.
  - by_eval.
  - by_eval.
  - intros H; discriminate H.
  - intros _ H; discriminate H.
Defined.

Example aggregate_equal_sizes :
  exists out : gmap string pyval,
    aggregate_logging_outputs [flat_record 20 10 2 10] = Ok out
    /\ out !! "loss" = Some (PNum (20 / 10 / math_log2))
    /\ out !! "nll_loss" = None.
Proof.
  eexists. split.
  - rewrite (aggregate_logging_outputs_ok _ 20 10 (PNum 2) 10);
      [reflexivity | by_eval | by_eval | by_eval | by_eval
      | intros H; discriminate H | intros H; exfalso; apply H; reflexivity].
  - split; by_eval.
Qed.

(** C6.  When the four statistics are found, the loss sum is a number
    and the sample size is zero, the division raises
    [ZeroDivisionError] and nothing is returned. *)
Theorem aggregate_zero_sample_size los l n ns ss :
  get_logging_output los "loss" = Ok (PNum l) ->
  get_logging_output los "ntokens" = Ok n ->
  get_logging_output los "nsentences" = Ok ns ->
  get_logging_output los "sample_size" = Ok (PNum ss) ->
  ss == 0 ->
  aggregate_logging_outputs los = Raise ZeroDivisionError.
Proof.
  intros Hl Hn Hns Hss Hss0. unfold aggregate_logging_outputs.
  rewrite (bind_Ok _ _ _ Hl), (bind_Ok _ _ _ Hn), (bind_Ok _ _ _ Hns),
    (bind_Ok _ _ _ Hss).
  rewrite (bind_Raise _ _ _ (py_truediv_zero l ss Hss0)). reflexivity.
Qed.

Lemma aggregate_zero_sample_size_witness :
  aggregate_logging_outputs [flat_record 20 10 2 0]
  = Raise ZeroDivisionError.
Proof.
  apply (aggregate_zero_sample_size _ 20 (PNum 10) (PNum 2) 0).
  - by_eval.
  - by_eval.
  - by_eval.
  - by_eval.
  - reflexivity.
Defined.

(** * Properties of [forward] *)

Section Properties.

Context {F : Framework}.

(** ** The monad of traced computations *)

Lemma outcome_bind {A B} (m : M A) (k : A -> M B) :
  outcome (m ≫= k) =
    match outcome m with
    | Ok a => outcome (k a)
    | Raise e => Raise e
    end.
Proof. unfold mbind, M_bind. destruct (outcome m); reflexivity. Qed.

Lemma trace_bind {A B} (m : M A) (k : A -> M B) :
  trace (m ≫= k) =
    match outcome m with
    | Ok a => trace m ++ trace (k a)
    | Raise e => trace m
    end.
Proof. unfold mbind, M_bind. destruct (outcome m); reflexivity. Qed.

Lemma M_eq {A} (m1 m2 : M A) :
  trace m1 = trace m2 -> outcome m1 = outcome m2 -> m1 = m2.
Proof. destruct m1, m2. simpl. intros -> ->. reflexivity. Qed.

Lemma bind_lift_Ok {A B} (r : result A) (k : A -> M B) a :
  r = Ok a -> (lift r ≫= k) = k a.
Proof.
  intros ->. apply M_eq; [rewrite trace_bind|rewrite outcome_bind];
    reflexivity.
Qed.

Lemma bind_lift_Raise {A B} (r : result A) (k : A -> M B) e :
  r = Raise e -> (lift r ≫= k) = raise e.
Proof. intros ->. reflexivity. Qed.

(** ** Generators and the loop over them *)

(** A loop that ends normally has run its body on every item, and the
    generator has stopped without raising.  [I] is an invariant of the
    body, indexed by the items consumed so far. *)
Lemma for_gen_invariant {A S} (body : A -> S -> M S)
    (I : list A -> S -> Prop) :
  (forall seen a s s',
      I seen s -> outcome (body a s) = Ok s' -> I (seen ++ [a]) s') ->
  forall g seen s s',
    I seen s ->
    outcome (for_gen g body s) = Ok s' ->
    I (seen ++ yielded g) s' /\ stops g.
Proof.
  intros Hbody g. induction g as [|a rest IH|e]; intros seen s s' HI Hrun.
  - simpl in *. injection Hrun as <-. rewrite app_nil_r. done.
  - simpl in Hrun. rewrite outcome_bind in Hrun.
    destruct (outcome (body a s)) as [s1|e] eqn:E; [|discriminate].
    destruct (IH (seen ++ [a]) s1 s') as [H1 H2]; [by eapply Hbody|done|].
    simpl. split; [|done]. by rewrite <- app_assoc in H1.
  - discriminate.
Qed.

(** A body that raises on some item ends the loop with that exception,
    provided the body ran normally on the items before it. *)
Lemma for_gen_raise {A S} (body : A -> S -> M S) (P : A -> Prop) e :
  (forall a s, P a -> exists s', outcome (body a s) = Ok s') ->
  forall g before a after s,
    yielded g = before ++ a :: after ->
    Forall P before ->
    (forall s0, outcome (body a s0) = Raise e) ->
    outcome (for_gen g body s) = Raise e.
Proof.
  intros Hok g before. revert g.
  induction before as [|b before IH]; intros g a after s Hy HP Hbad.
  - destruct g as [|x rest|]; simpl in Hy; try discriminate.
    injection Hy as -> _. simpl. rewrite outcome_bind, Hbad. reflexivity.
  - destruct g as [|x rest|]; simpl in Hy; try discriminate.
    injection Hy as -> Hy. inversion HP as [|? ? Hb HP']; subst.
    destruct (Hok b s Hb) as [s1 Hs1].
    simpl. rewrite outcome_bind, Hs1. by eapply IH.
Qed.

(** The generator of [_generate_translation] yields one item per batch
    id when it stops. *)
Lemma yield_items_stops t pad_idx hypos ids0 i :
  stops (yield_items t pad_idx hypos i ids0) ->
  length (yielded (yield_items t pad_idx hypos i ids0)) = length ids0.
Proof.
  revert i. induction ids0 as [|x ids0 IH]; intros i; simpl; [done|].
  destruct (select_row t i); simpl; [|done].
  destruct (hypos !! i); simpl; [|done].
  intros H. by rewrite IH.
Qed.

(** ** [_generate_translation] *)

(** One decoder call is made, then the items are yielded. *)
Lemma generate_translation_run self m d s t c maxlen :
  net_input s !! "src_tokens" = Some t ->
  shape t !! 1%nat = Some c ->
  maxlen_of (self_args self) c = Ok maxlen ->
  generate_translation self m d s =
    let encoder_input :=
      filter
        (fun kv => kv.1 ∈ encoder_keys (use_char_source (self_task self)))
        (net_input s) in
    let beam_size := beam (self_args self) in
    MkM [Generate m d encoder_input beam_size maxlen]
      (Ok (yield_items t (pad d)
             (generate m d encoder_input beam_size maxlen) 0 (ids s))).
Proof.
  intros Ht Hc Hml. unfold generate_translation. rewrite Ht.
  rewrite (bind_lift_Ok _ _ t eq_refl).
  unfold size1. rewrite Hc. rewrite (bind_lift_Ok _ _ c eq_refl).
  rewrite (bind_lift_Ok _ _ maxlen Hml).
  reflexivity.
Qed.

(** Before the decoder is called: what the set-up of a decode raises. *)
Lemma generate_translation_setup self m d s :
  match net_input s !! "src_tokens" with
  | None => generate_translation self m d s = raise KeyError
  | Some t =>
      match shape t !! 1%nat with
      | None => generate_translation self m d s = raise IndexError
      | Some c =>
          match maxlen_of (self_args self) c with
          | Raise e => generate_translation self m d s = raise e
          | Ok maxlen =>
              outcome (generate_translation self m d s)
              = Ok (yield_items t (pad d)
                      (generate m d
                         (filter
                            (fun kv =>
                               kv.1 ∈ encoder_keys
                                        (use_char_source (self_task self)))
                            (net_input s))
                         (beam (self_args self)) maxlen)
                      0 (ids s))
          end
      end
  end.
Proof.
  destruct (net_input s !! "src_tokens") as [t|] eqn:Ht.
  - destruct (shape t !! 1%nat) as [c|] eqn:Hc.
    + destruct (maxlen_of (self_args self) c) as [ml|e] eqn:Hml.
      * by rewrite (generate_translation_run self m d s t c ml Ht Hc Hml).
      * unfold generate_translation. rewrite Ht.
        rewrite (bind_lift_Ok _ _ t eq_refl). unfold size1. rewrite Hc.
        rewrite (bind_lift_Ok _ _ c eq_refl).
        by rewrite (bind_lift_Raise _ _ e Hml).
    + unfold generate_translation. rewrite Ht.
      rewrite (bind_lift_Ok _ _ t eq_refl). unfold size1. by rewrite Hc.
  - unfold generate_translation. by rewrite Ht.
Qed.

Lemma py_int_float_Ok x ml :
  py_int_float x = Ok ml <->
  exists q, float_value x = Some q /\ ml = py_int q.
Proof.
  unfold py_int_float. destruct (float_value x) as [q|].
  - split.
    + intros [= <-]. by exists q.
    + intros (q' & [= <-] & ->). done.
  - split.
    + by destruct (Prim2SF x).
    + by intros (q' & ? & _).
Qed.


(** [int] truncates toward zero. *)
Lemma py_int_nonneg x : 0 <= x -> py_int x = Qfloor x.
Proof.
  intros Hx. unfold py_int, Qfloor. destruct x as [n d].
  apply Z.quot_div_nonneg; [|lia].
  unfold Qle in Hx. simpl in *. lia.
Qed.

Lemma py_int_nonpos x : x <= 0 -> py_int x = Qceiling x.
Proof.
  intros Hx. unfold py_int, Qceiling, Qfloor. destruct x as [n d].
  unfold Qle in Hx. simpl in *.
  rewrite <- (Z.opp_involutive n) at 1.
  rewrite Z.quot_opp_l by lia. f_equal.
  apply Z.quot_div_nonneg; lia.
Qed.

Lemma py_int_bounds x :
  (0 <= x -> inject_Z (py_int x) <= x /\ x < inject_Z (py_int x) + 1)
  /\ (x <= 0 -> inject_Z (py_int x) - 1 < x /\ x <= inject_Z (py_int x)).
Proof.
  split; intros Hx.
  - rewrite (py_int_nonneg x Hx). split; [apply Qfloor_le|].
    pose proof (Qlt_floor x) as H. rewrite inject_Z_plus in H. exact H.
  - rewrite (py_int_nonpos x Hx). split; [|apply Qle_ceiling].
    pose proof (Qceiling_lt x) as H.
    unfold Z.sub in H. rewrite inject_Z_plus in H. exact H.
Qed.

(** C3, as amended.  For a batch whose [net_input] holds a
    [src_tokens] tensor with [c] columns, when the binary64 number
    [max_len_a * c + max_len_b] is finite and stands for the rational
    [q], the decoder is called once and the maximum output length it is
    given is [q] truncated toward zero: the floor of a non-negative
    value and the ceiling of a non-positive one. *)
Theorem generate_translation_maxlen self m d s t c q :
  net_input s !! "src_tokens" = Some t ->
  shape t !! 1%nat = Some c ->
  float_value (scaled_len (self_args self) c) = Some q ->
  exists enc ml,
    trace (generate_translation self m d s)
    = [Generate m d enc (beam (self_args self)) ml]
    /\ ml = py_int q
    /\ (0 <= q -> inject_Z ml <= q /\ q < inject_Z ml + 1)
    /\ (q <= 0 -> inject_Z ml - 1 < q /\ q <= inject_Z ml).
Proof.
  intros Ht Hc Hq.
  assert (Hml : maxlen_of (self_args self) c = Ok (py_int q)).
  { unfold maxlen_of. apply py_int_float_Ok. by exists q. }
  rewrite (generate_translation_run self m d s t c _ Ht Hc Hml).
  cbv zeta. eexists _, _. split; [reflexivity|]. split; [reflexivity|].
  apply py_int_bounds.
Qed.

(** ** The backward-direction sample *)

Lemma append_eos_run src eos_index t :
  last src = Some t ->
  append_eos src eos_index =
    Ok (if decide (t <> eos_index) then src ++ [eos_index] else src).
Proof.
  intros Ht. unfold append_eos, last_item. rewrite Ht. simpl.
  destruct (decide (t <> eos_index)); reflexivity.
Qed.

Lemma append_eos_empty eos_index : append_eos [] eos_index = Raise IndexError.
Proof. reflexivity. Qed.

Lemma make_backward_sample_run self eos_index id src h hs t :
  last src = Some t ->
  make_backward_sample self eos_index (id, src, h :: hs) =
    Ok {| sample_id := id;
          source := strip_eos self (tokens h);
          target := if decide (t <> eos_index)
                    then src ++ [eos_index] else src;
          weights := 1 - alpha self |}.
Proof.
  intros Ht. unfold make_backward_sample. simpl.
  rewrite (append_eos_run src eos_index t Ht). reflexivity.
Qed.

Lemma make_backward_sample_inv self eos_index id src hypos b :
  make_backward_sample self eos_index (id, src, hypos) = Ok b ->
  exists h hs t,
    hypos = h :: hs /\ last src = Some t
    /\ b = {| sample_id := id;
              source := strip_eos self (tokens h);
              target := if decide (t <> eos_index)
                        then src ++ [eos_index] else src;
              weights := 1 - alpha self |}.
Proof.
  intros Hb. destruct hypos as [|h hs]; [discriminate|].
  destruct (last src) as [t|] eqn:Ht.
  - rewrite (make_backward_sample_run _ _ _ _ _ _ t Ht) in Hb.
    injection Hb as <-. by exists h, hs, t.
  - apply last_None in Ht. subst src. discriminate.
Qed.

(** ** The reconstruction reward *)

Lemma backward_reward_of_inv self bm sd b br :
  outcome (backward_reward_of self bm sd b) = Ok br ->
  exists pairs,
    br = bleu_score (pad sd) (eos sd) (unk sd) pairs 4 / 100.
Proof.
  unfold backward_reward_of. rewrite outcome_bind.
  destruct (outcome (generate_translation _ _ _ _)) as [g|]; [|done].
  rewrite outcome_bind.
  destruct (outcome (for_gen _ _ _)) as [pairs|]; [|done].
  simpl. intros [= <-]. by exists pairs.
Qed.

(** ** One turn of the loop *)

(** Once the backward sample is built, the turn makes the calls of the
    backward decode, and ends as the backward decode and the check of
    the top hypothesis decide. *)
Lemma reward_step_run self td bm sd id src h hs fs bs b :
  make_backward_sample self (eos td) (id, src, h :: hs) = Ok b ->
  trace (reward_step self td bm sd (id, src, h :: hs) (fs, bs))
  = trace (backward_reward_of self bm sd b)
  /\ outcome (reward_step self td bm sd (id, src, h :: hs) (fs, bs))
    = match outcome (backward_reward_of self bm sd b) with
      | Raise e => Raise e
      | Ok br =>
          match last (tokens h) with
          | None => Raise IndexError
          | Some t =>
              if decide (t = eos td)
              then Ok (fs ++ [{| sample_id := id;
                                 source := src;
                                 target := tokens h;
                                 weights := total_reward_of self lm_score br |}],
                       bs ++ [b])
              else Raise AssertionError
          end
      end.
Proof.
  intros Hb. unfold reward_step. rewrite (bind_lift_Ok _ _ b Hb).
  rewrite trace_bind, outcome_bind.
  destruct (outcome (backward_reward_of self bm sd b)) as [br|e];
    [|done].
  simpl first_item. rewrite (bind_lift_Ok _ _ h eq_refl).
  unfold last_item. destruct (last (tokens h)) as [t|].
  - rewrite (bind_lift_Ok _ _ t eq_refl).
    destruct (decide (t = eos td)); simpl; by rewrite app_nil_r.
  - simpl. by rewrite app_nil_r.
Qed.

Lemma reward_step_no_sample self td bm sd it st e :
  make_backward_sample self (eos td) it = Raise e ->
  reward_step self td bm sd it st = raise e.
Proof.
  intros Hb. destruct st as [fs bs], it as [[id src] hypos].
  unfold reward_step. by rewrite (bind_lift_Raise _ _ e Hb).
Qed.

(** A turn that ends normally has built and scored the backward sample,
    found the end-of-sequence token at the end of the top hypothesis, and
    added one sample to each list. *)
Lemma reward_step_inv self td bm sd id src hypos fs bs fs' bs' :
  outcome (reward_step self td bm sd (id, src, hypos) (fs, bs))
  = Ok (fs', bs') ->
  exists b br h,
    make_backward_sample self (eos td) (id, src, hypos) = Ok b
    /\ outcome (backward_reward_of self bm sd b) = Ok br
    /\ top_hypothesis (id, src, hypos) = Some h
    /\ last (tokens h) = Some (eos td)
    /\ fs' = fs ++ [{| sample_id := id;
                       source := src;
                       target := tokens h;
                       weights := total_reward_of self lm_score br |}]
    /\ bs' = bs ++ [b].
Proof.
  intros Hrun.
  destruct (make_backward_sample self (eos td) (id, src, hypos))
    as [b|e] eqn:Hb.
  - destruct (make_backward_sample_inv _ _ _ _ _ _ Hb)
      as (h & hs & t & -> & _ & _).
    destruct (reward_step_run self td bm sd id src h hs fs bs b Hb)
      as [_ Ho].
    rewrite Ho in Hrun.
    destruct (outcome (backward_reward_of self bm sd b)) as [br|] eqn:Hbr;
      [|done].
    destruct (last (tokens h)) as [x|] eqn:Hx; [|done].
    destruct (decide (x = eos td)) as [->|]; [|done].
    injection Hrun as <- <-. by exists b, br, h.
  - by rewrite (reward_step_no_sample _ _ _ _ _ _ e Hb) in Hrun.
Qed.

(** ** The loop and what follows it *)

Lemma generate_translation_inv self m d s g :
  outcome (generate_translation self m d s) = Ok g ->
  exists t c maxlen,
    net_input s !! "src_tokens" = Some t
    /\ shape t !! 1%nat = Some c
    /\ maxlen_of (self_args self) c = Ok maxlen
    /\ g = yield_items t (pad d)
             (generate m d
                (filter
                   (fun kv =>
                      kv.1 ∈ encoder_keys (use_char_source (self_task self)))
                   (net_input s))
                (beam (self_args self)) maxlen)
             0 (ids s).
Proof.
  intros Hg. pose proof (generate_translation_setup self m d s) as H.
  destruct (net_input s !! "src_tokens") as [t|] eqn:Ht;
    [|by rewrite H in Hg].
  destruct (shape t !! 1%nat) as [c|] eqn:Hc; [|by rewrite H in Hg].
  destruct (maxlen_of (self_args self) c) as [ml|e] eqn:Hml;
    [|by rewrite H in Hg].
  rewrite H in Hg. injection Hg as <-. by exists t, c, ml.
Qed.

(** After the loop nothing raises: the step returns the two losses
    added up, the two sample sizes added up and the two logging records
    under ["primal"] and ["dual"]. *)
Lemma forward_returns self s fm fo td bm bo sd fs bs :
  outcome (reward_loop self s fm td bm sd) = Ok (fs, bs) ->
  outcome (forward self s fm fo td bm bo sd) =
    Ok (let '(forward_loss, size_f, log_f) :=
          task_criterion fm (collate fs (pad td) (eos td)) in
        let '(backward_loss, size_b, log_b) :=
          task_criterion bm (collate bs (pad sd) (eos sd)) in
        (0 + forward_loss + backward_loss, 0 + size_f + size_b,
         PDict (<["dual" := log_b]> (<["primal" := log_f]> ∅)))).
Proof.
  intros Hloop. unfold forward. rewrite outcome_bind, Hloop.
  destruct (task_criterion fm _) as [[fl sf] lf].
  destruct (task_criterion bm _) as [[bl sb] lb].
  reflexivity.
Qed.

Lemma forward_raises self s fm fo td bm bo sd e :
  outcome (reward_loop self s fm td bm sd) = Raise e ->
  outcome (forward self s fm fo td bm bo sd) = Raise e.
Proof. intros Hloop. unfold forward. by rewrite outcome_bind, Hloop. Qed.

(** A loop that ends normally has, for every decoded example in turn,
    one forward sample and one backward sample, the latter built by
    [make_backward_sample]; every top hypothesis ended with the
    end-of-sequence token. *)
Lemma reward_loop_inv self s fm td bm sd fs bs :
  outcome (reward_loop self s fm td bm sd) = Ok (fs, bs) ->
  exists g,
    outcome (generate_translation self fm td s) = Ok g
    /\ stops g
    /\ length fs = length (yielded g)
    /\ Forall2 (fun it b => make_backward_sample self (eos td) it = Ok b)
         (yielded g) bs
    /\ Forall (top_ends_with (eos td)) (yielded g).
Proof.
  unfold reward_loop. rewrite outcome_bind.
  destruct (outcome (generate_translation self fm td s)) as [g|] eqn:Hg;
    [|done].
  intros Hrun. exists g. split; [done|].
  pose (I := fun (seen : list item) (st : list sample * list sample) =>
     length st.1 = length seen
     /\ Forall2
          (fun it b => make_backward_sample self (eos td) it = Ok b)
          seen st.2
     /\ Forall (top_ends_with (eos td)) seen).
  destruct (for_gen_invariant (reward_step self td bm sd) I) with
    (g := g) (seen := @nil item) (s := (@nil sample, @nil sample))
    (s' := (fs, bs)) as [(H1 & H2 & H3) Hstop]; [| |done|done].
  - intros seen [[id src] hypos] [fs0 bs0] [fs1 bs1] (Hl & Hb & Ht) Hstep.
    apply reward_step_inv in Hstep
      as (b & br & h & Hmk & _ & Htop & Hlast & -> & ->).
    unfold I. simpl in *. split_and!.
    + rewrite !length_app. simpl. lia.
    + apply Forall2_app; [done|]. by constructor.
    + apply Forall_app. split; [done|]. constructor; [|done].
      by exists h.
  - unfold I. simpl. split_and!; constructor.
Qed.

(** ** The claims about [forward] *)

Lemma total_reward_bounds a g :
  0 <= a <= 1 -> 0 <= g <= 100 ->
  0 <= a * (1 # 2) + (1 - a) * (g / 100) <= 1.
Proof.
  intros [Ha0 Ha1] [Hg0 Hg1].
  assert (Hq : g / 100 == g * (1 # 100)) by (unfold Qdiv; reflexivity).
  rewrite Hq. set (q := g * (1 # 100)).
  assert (0 <= q <= 1) as [Hq0 Hq1] by (unfold q; lra).
  split; nra.
Qed.

(** A turn returns when the backward sample is built and scored and
    the top hypothesis ends with the end-of-sequence token. *)
Lemma reward_step_returns self td bm sd id src hypos fs bs b br :
  make_backward_sample self (eos td) (id, src, hypos) = Ok b ->
  outcome (backward_reward_of self bm sd b) = Ok br ->
  top_ends_with (eos td) (id, src, hypos) ->
  exists st,
    outcome (reward_step self td bm sd (id, src, hypos) (fs, bs)) = Ok st.
Proof.
  intros Hb Hbr (h & Htop & Hlast).
  destruct hypos as [|h' hs]; [discriminate|].
  injection Htop as ->.
  destruct (reward_step_run self td bm sd id src h hs fs bs b Hb)
    as [_ Ho].
  rewrite Hbr, Hlast in Ho.
  destruct (decide (eos td = eos td)); [|done].
  eexists. exact Ho.
Qed.


(** C7.  Every backward sample the loop hands to batch assembly has
    weight [1 - alpha]. *)
Theorem backward_sample_weight self s fm td bm sd fs bs b :
  outcome (reward_loop self s fm td bm sd) = Ok (fs, bs) ->
  b ∈ bs ->
  weights b = 1 - alpha self.
Proof.
  intros Hloop Hin.
  destruct (reward_loop_inv _ _ _ _ _ _ _ _ Hloop)
    as (g & _ & _ & _ & Hbs & _).
  destruct (proj1 (list_elem_of_lookup bs b) Hin) as [i Hi].
  destruct (Forall2_lookup_r _ _ _ _ _ Hbs Hi)
    as ([[id src] hypos] & _ & Hmk).
  apply make_backward_sample_inv in Hmk as (h & hs & t & _ & _ & ->).
  reflexivity.
Qed.

(** The weight does not wait for the reward: it is fixed as soon as the
    sample is built. *)
Lemma make_backward_sample_weight self eos_index id src h hs :
  src <> [] ->
  exists b,
    make_backward_sample self eos_index (id, src, h :: hs) = Ok b
    /\ weights b = 1 - alpha self.
Proof.
  intros Hsrc. destruct (last src) as [t|] eqn:Ht.
  - eexists. split; [by apply make_backward_sample_run|reflexivity].
  - by apply last_None in Ht.
Qed.

(** C8.  The target of the backward sample is the original source, with
    one end-of-sequence token appended when its last token is another
    token and unchanged when its last token is the end-of-sequence
    token; it ends with that token, and ends with two of them only if
    the original source did. *)
Theorem backward_target_eos self eos_index id src h hs t :
  last src = Some t ->
  exists b,
    make_backward_sample self eos_index (id, src, h :: hs) = Ok b
    /\ (t <> eos_index -> target b = src ++ [eos_index])
    /\ (t = eos_index -> target b = src)
    /\ last (target b) = Some eos_index
    /\ (forall p,
          target b = p ++ [eos_index; eos_index] ->
          exists p', src = p' ++ [eos_index; eos_index]).
Proof.
  intros Ht. eexists. split; [by apply make_backward_sample_run|].
  simpl. destruct (decide (t <> eos_index)) as [Hne|Heq].
  - split; [done|]. split; [done|]. split; [by rewrite last_snoc|].
    intros p Hp.
    replace (p ++ [eos_index; eos_index])
      with ((p ++ [eos_index]) ++ [eos_index]) in Hp
      by (by rewrite <- app_assoc).
    apply app_inj_tail in Hp as [-> _].
    rewrite last_snoc in Ht. congruence.
  - apply dec_stable in Heq. subst t.
    split; [done|]. split; [done|]. split; [done|].
    intros p ->. by exists p.
Qed.

(** C9.  When the loop reaches batch assembly, the forward samples and
    the backward samples are as many as the decoded examples, which are
    as many as the ids of the batch. *)
Theorem sample_lists_same_length self s fm td bm sd fs bs :
  outcome (reward_loop self s fm td bm sd) = Ok (fs, bs) ->
  exists g,
    outcome (generate_translation self fm td s) = Ok g
    /\ length fs = length (yielded g)
    /\ length bs = length (yielded g)
    /\ length (yielded g) = length (ids s).
Proof.
  intros Hloop.
  destruct (reward_loop_inv _ _ _ _ _ _ _ _ Hloop)
    as (g & Hg & Hstop & Hfs & Hbs & _).
  exists g. split; [done|]. split; [done|].
  split; [symmetry; by eapply Forall2_length|].
  destruct (generate_translation_inv _ _ _ _ _ Hg)
    as (t & c & ml & _ & _ & _ & ->).
  by apply yield_items_stops.
Qed.

(** C10.  With [append_eos_to_source] off, the source of the backward
    sample is the top hypothesis without its last token, whatever that
    token is.  The turn decodes this sample with the backward model
    before it checks the hypothesis: when the last token is not the
    end-of-sequence token and the backward decode ends normally, the
    calls of the backward decode have been made and the turn raises
    [AssertionError]. *)
Theorem backward_source_drops_last a k td bm sd id src h hs fs bs t :
  append_eos_to_source a = false ->
  last src = Some t ->
  exists b,
    make_backward_sample (init a k) (eos td) (id, src, h :: hs) = Ok b
    /\ source b = removelast (tokens h)
    /\ (forall y, last (tokens h) = Some y -> tokens h = source b ++ [y])
    /\ trace (reward_step (init a k) td bm sd (id, src, h :: hs) (fs, bs))
       = trace (backward_reward_of (init a k) bm sd b)
    /\ (forall y br,
          last (tokens h) = Some y ->
          y <> eos td ->
          outcome (backward_reward_of (init a k) bm sd b) = Ok br ->
          outcome (reward_step (init a k) td bm sd (id, src, h :: hs)
                     (fs, bs))
          = Raise AssertionError).
Proof.
  intros Hflag Ht.
  assert (Hs : strip_eos (init a k) (tokens h) = removelast (tokens h)).
  { unfold strip_eos. simpl. by rewrite Hflag. }
  pose proof (make_backward_sample_run (init a k) (eos td) id src h hs t Ht)
    as Hb.
  rewrite Hs in Hb.
  destruct (reward_step_run (init a k) td bm sd id src h hs fs bs _ Hb)
    as [Htr Ho].
  eexists. split; [exact Hb|]. cbn [source].
  split; [done|]. split.
  { intros y Hy. apply last_Some in Hy as [l' Hl'].
    rewrite Hl'. by rewrite removelast_last. }
  split; [exact Htr|].
  intros y br Hy Hne Hbr. rewrite Ho, Hbr, Hy.
  by destruct (decide (y = eos td)).
Qed.

(** A step that returns has found the end-of-sequence token at the end
    of the top hypothesis of every decoded example. *)
Lemma forward_returns_tops_end_with_eos self s fm fo td bm bo sd r :
  outcome (forward self s fm fo td bm bo sd) = Ok r ->
  exists g,
    outcome (generate_translation self fm td s) = Ok g
    /\ Forall (top_ends_with (eos td)) (yielded g).
Proof.
  intros Hr.
  destruct (outcome (reward_loop self s fm td bm sd)) as [[fs bs]|e]
    eqn:Hloop.
  - destruct (reward_loop_inv _ _ _ _ _ _ _ _ Hloop)
      as (g & Hg & _ & _ & _ & Htops).
    by exists g.
  - by rewrite (forward_raises _ _ _ fo _ _ bo _ _ Hloop) in Hr.
Qed.

(** C2, as amended.  The check is on the top-ranked hypothesis of each
    decoded example.  When the examples before some example pass it,
    and the top hypothesis of that example, its backward sample built
    and scored, ends with another token than end-of-sequence, the
    training step raises [AssertionError]. *)
Theorem top_hypothesis_checked
    self s fm fo td bm bo sd g before it after h y :
  outcome (generate_translation self fm td s) = Ok g ->
  yielded g = before ++ it :: after ->
  Forall (fun x => scorable self td bm sd x /\ top_ends_with (eos td) x)
    before ->
  scorable self td bm sd it ->
  top_hypothesis it = Some h ->
  last (tokens h) = Some y ->
  y <> eos td ->
  outcome (forward self s fm fo td bm bo sd) = Raise AssertionError.
Proof.
  intros Hg Hy Hbefore (b & br & Hb & Hbr) Htop Hlast Hne.
  apply forward_raises. unfold reward_loop. rewrite outcome_bind, Hg.
  eapply for_gen_raise with
    (P := fun x => scorable self td bm sd x /\ top_ends_with (eos td) x);
    [|exact Hy|exact Hbefore|].
  - intros [[id src] hypos] [fs bs] [(b' & br' & Hb' & Hbr') Hends].
    destruct (reward_step_returns self td bm sd id src hypos
                fs bs b' br' Hb' Hbr' Hends) as [st Hst].
    by exists st.
  - intros [fs bs]. destruct it as [[id src] hypos].
    destruct hypos as [|h' hs]; [discriminate|].
    injection Htop as ->.
    destruct (reward_step_run self td bm sd id src h hs fs bs b Hb)
      as [_ Ho].
    rewrite Ho, Hbr, Hlast. by destruct (decide (y = eos td)).
Qed.

End Properties.

Lemma generate_translation_maxlen_witness :
  exists enc ml,
    trace (generate_translation (F := toy) toy_self FwdGood toy_dict
             toy_batch)
    = [Generate (F := toy) FwdGood toy_dict enc (beam (self_args toy_self)) ml]
    /\ ml = py_int toy_scaled_len
    /\ (0 <= toy_scaled_len ->
        inject_Z ml <= toy_scaled_len /\ toy_scaled_len < inject_Z ml + 1)
    /\ (toy_scaled_len <= 0 ->
        inject_Z ml - 1 < toy_scaled_len /\ toy_scaled_len <= inject_Z ml).
Proof.
  apply (generate_translation_maxlen (F := toy) toy_self FwdGood toy_dict
           toy_batch (Tensor [2%nat; 3%nat] [4; 5; 6; 4; 5; 1]%Z) 3
           toy_scaled_len).
  - by_eval.
  - reflexivity.
  - by_eval.
Defined.

(** C3, as stated, fails.  With [max_len_a = 1.25], [max_len_b = 0] and
    a source of three columns the sum is the float [3.75], computed
    without rounding; the decoder is given [3], its truncation, whereas
    rounding gives [4]. *)
Lemma maxlen_is_truncated_not_rounded :
  map event_maxlen
    (trace (generate_translation (F := toy) toy_self FwdGood toy_dict
              toy_batch))
  = [Some 3%Z]
  /\ float_value (scaled_len (self_args toy_self) 3) = Some toy_scaled_len
  /\ toy_scaled_len == 15 # 4
  /\ py_round toy_scaled_len = 4%Z.
Proof. repeat split; by_eval. Qed.

(** Where the rounding of binary64 decides the length: the product and
    the sum are rounded before [int] cuts. *)
Example maxlen_of_rounded_operations :
  maxlen_of (args_of_lengths 0x1.3333333333333p+0 10) 5 = Ok 16%Z
  /\ maxlen_of (args_of_lengths 0x1.6666666666666p-1 0) 10 = Ok 7%Z
  /\ maxlen_of (args_of_lengths 0x1.28f5c28f5c28fp-2 0) 100 = Ok 28%Z.
Proof. repeat split; by_eval. Qed.

(** An infinite or undefined sum has no integer. *)
Example maxlen_of_not_finite :
  maxlen_of (args_of_lengths infinity 0) 3 = Raise OverflowError
  /\ maxlen_of (args_of_lengths 0x1p+1023 0) 4 = Raise OverflowError
  /\ maxlen_of (args_of_lengths infinity 0) 0 = Raise ValueError.
Proof. repeat split; by_eval. Qed.

(** * The criterion run on the small framework *)

Lemma toy_reward_loop_good :
  outcome (reward_loop (F := toy) toy_self toy_batch FwdGood toy_dict Bwd
             toy_dict)
  = Ok (toy_forward_samples, toy_backward_samples).
Proof. by_eval. Qed.

Lemma toy_generate_translation_bad :
  outcome (generate_translation (F := toy) toy_self FwdBad toy_dict
             toy_batch)
  = Ok (GYield toy_item_bad
          (GYield (1%Z, [4; 5]%Z, [Hypo [7; 9]%Z (-1 # 2)]) GStop)).
Proof. by_eval. Qed.

Lemma toy_scorable_bad :
  scorable (F := toy) toy_self toy_dict Bwd toy_dict toy_item_bad.
Proof.
  exists (Sample 0 [7]%Z [4; 5; 6; 2]%Z (1 - (1 # 2))), (40 / 100).
  split; by_eval.
Qed.

(** C2, as stated, fails.  [FwdGood] produces, below the top hypothesis,
    a hypothesis that ends with token 9, not with the end-of-sequence
    token 2; the loop ends normally all the same and the training step
    returns. *)
Lemma lower_ranked_hypothesis_unchecked :
  exists g it h r,
    outcome (generate_translation (F := toy) toy_self FwdGood toy_dict
               toy_batch) = Ok g
    /\ it ∈ yielded g
    /\ h ∈ it.2
    /\ last (tokens h) = Some 9%Z
    /\ eos toy_dict = 2%Z
    /\ outcome (forward (F := toy) toy_self toy_batch FwdGood tt toy_dict
                  Bwd tt toy_dict) = Ok r.
Proof.
  exists (GYield toy_item_good
            (GYield (1%Z, [4; 5]%Z, toy_item_good.2) GStop)),
    toy_item_good, (Hypo [8; 9]%Z (-1)).
  eexists. split; [by_eval|].
  split; [simpl; apply list_elem_of_here|].
  split; [simpl; apply list_elem_of_further, list_elem_of_here|].
  split; [reflexivity|]. split; [reflexivity|].
  apply (forward_returns (F := toy)). exact toy_reward_loop_good.
Qed.

Lemma top_hypothesis_checked_witness :
  outcome (forward (F := toy) toy_self toy_batch FwdBad tt toy_dict Bwd tt
             toy_dict)
  = Raise AssertionError.
Proof.
  apply (top_hypothesis_checked (F := toy) toy_self toy_batch FwdBad tt
           toy_dict Bwd tt toy_dict
           (GYield toy_item_bad
              (GYield (1%Z, [4; 5]%Z, [Hypo [7; 9]%Z (-1 # 2)]) GStop))
           [] toy_item_bad [(1%Z, [4; 5]%Z, [Hypo [7; 9]%Z (-1 # 2)])]
           (Hypo [7; 9]%Z (-1 # 2)) 9%Z).
  - exact toy_generate_translation_bad.
  - reflexivity.
  - constructor.
  - exact toy_scorable_bad.
  - reflexivity.
  - reflexivity.
  - discriminate.
Defined.


Lemma backward_sample_weight_witness :
  weights (Sample 0 [7]%Z [4; 5; 6; 2]%Z (1 - (1 # 2))) = 1 - alpha toy_self.
Proof.
  apply (backward_sample_weight (F := toy) toy_self toy_batch FwdGood
           toy_dict Bwd toy_dict toy_forward_samples toy_backward_samples).
  - exact toy_reward_loop_good.
  - apply list_elem_of_here.
Defined.

Lemma backward_target_eos_witness :
  exists b,
    make_backward_sample toy_self 2%Z (0%Z, [4; 5; 6]%Z, toy_item_good.2)
    = Ok b
    /\ (6%Z <> 2%Z -> target b = [4; 5; 6]%Z ++ [2%Z])
    /\ (6%Z = 2%Z -> target b = [4; 5; 6]%Z)
    /\ last (target b) = Some 2%Z
    /\ (forall p,
          target b = p ++ [2; 2]%Z ->
          exists p', [4; 5; 6]%Z = p' ++ [2; 2]%Z).
Proof.
  apply (backward_target_eos toy_self 2%Z 0%Z [4; 5; 6]%Z
           (Hypo [7; 2]%Z (-1 # 2)) [Hypo [8; 9]%Z (-1)] 6%Z).
  reflexivity.
Defined.

Lemma sample_lists_same_length_witness :
  exists g,
    outcome (generate_translation (F := toy) toy_self FwdGood toy_dict
               toy_batch) = Ok g
    /\ length toy_forward_samples = length (yielded g)
    /\ length toy_backward_samples = length (yielded g)
    /\ length (yielded g) = length (ids toy_batch).
Proof.
  apply (sample_lists_same_length (F := toy) toy_self toy_batch FwdGood
           toy_dict Bwd toy_dict).
  exact toy_reward_loop_good.
Defined.

Lemma backward_source_drops_last_witness :
  exists b,
    make_backward_sample (init toy_args (Task false)) (eos toy_dict)
      (0%Z, [4; 5; 6]%Z, Hypo [7; 9]%Z (-1 # 2) :: []) = Ok b
    /\ source b = removelast (tokens (Hypo [7; 9]%Z (-1 # 2)))
    /\ (forall y,
          last (tokens (Hypo [7; 9]%Z (-1 # 2))) = Some y ->
          tokens (Hypo [7; 9]%Z (-1 # 2)) = source b ++ [y])
    /\ trace (reward_step (F := toy) (init toy_args (Task false)) toy_dict
                Bwd toy_dict
                (0%Z, [4; 5; 6]%Z, Hypo [7; 9]%Z (-1 # 2) :: []) ([], []))
       = trace (backward_reward_of (F := toy) (init toy_args (Task false))
                  Bwd toy_dict b)
    /\ (forall y br,
          last (tokens (Hypo [7; 9]%Z (-1 # 2))) = Some y ->
          y <> eos toy_dict ->
          outcome (backward_reward_of (F := toy)
                     (init toy_args (Task false)) Bwd toy_dict b) = Ok br ->
          outcome (reward_step (F := toy) (init toy_args (Task false))
                     toy_dict Bwd toy_dict
                     (0%Z, [4; 5; 6]%Z, Hypo [7; 9]%Z (-1 # 2) :: [])
                     ([], []))
          = Raise AssertionError).
Proof.
  apply (backward_source_drops_last (F := toy) toy_args (Task false)
           toy_dict Bwd toy_dict 0%Z [4; 5; 6]%Z (Hypo [7; 9]%Z (-1 # 2))
           [] [] [] 6%Z).
  - reflexivity.
  - reflexivity.
Defined.

Lemma forward_returns_tops_end_with_eos_witness :
  exists g,
    outcome (generate_translation (F := toy) toy_self FwdGood toy_dict
               toy_batch) = Ok g
    /\ Forall (top_ends_with (eos toy_dict)) (yielded g).
Proof.
  exact (forward_returns_tops_end_with_eos (F := toy) toy_self toy_batch
           FwdGood tt toy_dict Bwd tt toy_dict _
           (forward_returns (F := toy) toy_self toy_batch FwdGood tt
              toy_dict Bwd tt toy_dict _ _ toy_reward_loop_good)).
Defined.

(** * Further properties of [aggregate_logging_outputs] *)

(** The sum over the items of a record is a number or a [TypeError],
    and a [TypeError] as soon as one value is a number. *)
Lemma sum_items_outcome key (l : list (string * pyval)) :
  (exists q,
     foldr
       (uncurry (fun (_ : string) log acc =>
                   s ← acc; t ← nested_term key log; py_add s t))
       (Ok (PNum 0)) l
     = Ok (PNum q))
  \/ foldr
       (uncurry (fun (_ : string) log acc =>
                   s ← acc; t ← nested_term key log; py_add s t))
       (Ok (PNum 0)) l
     = Raise TypeError.
Proof.
  induction l as [|[k log] l [[q IH]|IH]]; simpl.
  - left. by exists 0.
  - rewrite IH. simpl. destruct log as [x|d']; simpl; [by right|].
    destruct (default (PNum 0) (d' !! key)) as [y|]; simpl;
      [left; by eexists|by right].
  - rewrite IH. by right.
Qed.

Lemma sum_items_number key (l : list (string * pyval)) k x :
  (k, PNum x) ∈ l ->
  foldr
    (uncurry (fun (_ : string) log acc =>
                s ← acc; t ← nested_term key log; py_add s t))
    (Ok (PNum 0)) l
  = Raise TypeError.
Proof.
  induction l as [|[k' log] l IH]; intros Hin.
  - by apply elem_of_nil in Hin.
  - apply elem_of_cons in Hin as [Heq|Hin].
    + injection Heq as <- <-. simpl.
      destruct (sum_items_outcome key l) as [[q ->]| ->]; reflexivity.
    + simpl. by rewrite (IH Hin).
Qed.

(** A statistic that is missing from a flat record is not counted as
    [0]: as soon as the record holds a number under any key, looking up a
    key it lacks raises [TypeError]. *)
Theorem get_logging_output_missing_key d rest key k x :
  d !! key = None ->
  d !! k = Some (PNum x) ->
  get_logging_output (PDict d :: rest) key = Raise TypeError.
Proof.
  intros Hkey Hk. unfold get_logging_output. simpl. rewrite Hkey.
  rewrite map_fold_foldr. apply (sum_items_number key _ k x).
  by apply elem_of_map_to_list.
Qed.

Lemma get_logging_output_missing_key_witness :
  get_logging_output
    (PDict (<["ntokens" := PNum 10]> {["loss" := PNum 20]}) :: [])
    "sample_size"
  = Raise TypeError.
Proof.
  apply (get_logging_output_missing_key _ [] "sample_size" "loss" 20);
    by_eval.
Defined.

Lemma py_truediv_inv a b v :
  py_truediv a b = Ok v ->
  exists x y, a = PNum x /\ b = PNum y /\ ~ y == 0 /\ v = PNum (x / y).
Proof.
  destruct a as [x|], b as [y|]; simpl; try discriminate.
  destruct (Qeq_bool y 0) eqn:E; [discriminate|].
  intros [= <-]. exists x, y. split_and!; try done.
  intros H. apply Qeq_bool_iff in H. congruence.
Qed.

(** What a returned record says about the input: the first logging
    record had a numeric loss sum and a numeric, non-zero sample size;
    the record returned holds the loss per sample in bits, hands the
    three counts on as they were found and has no other key than the
    five of the source. *)
Theorem aggregate_logging_outputs_inv los out :
  aggregate_logging_outputs los = Ok out ->
  exists l ss n ns,
    get_logging_output los "loss" = Ok (PNum l)
    /\ get_logging_output los "sample_size" = Ok (PNum ss)
    /\ get_logging_output los "ntokens" = Ok n
    /\ get_logging_output los "nsentences" = Ok ns
    /\ ~ ss == 0
    /\ out !! "loss" = Some (PNum (l / ss / math_log2))
    /\ out !! "ntokens" = Some n
    /\ out !! "nsentences" = Some ns
    /\ out !! "sample_size" = Some (PNum ss)
    /\ forall k, is_Some (out !! k) ->
                 k ∈ ["loss"; "ntokens"; "nsentences"; "sample_size";
                      "nll_loss"].
Proof.
  unfold aggregate_logging_outputs. intros H.
  destruct (get_logging_output los "loss") as [lv|]; [|done].
  destruct (get_logging_output los "ntokens") as [n|]; [|done].
  destruct (get_logging_output los "nsentences") as [ns|]; [|done].
  destruct (get_logging_output los "sample_size") as [sv|]; [|done].
  simpl in H.
  destruct (py_truediv lv sv) as [q|] eqn:Hq; [|done].
  apply py_truediv_inv in Hq as (l & ss & -> & -> & Hss & ->).
  simpl in H.
  assert (Hout :
    let agg : gmap string pyval :=
      <["sample_size" := PNum ss]>
        (<["nsentences" := ns]>
           (<["ntokens" := n]> {["loss" := PNum (l / ss / math_log2)]})) in
    out = agg \/ exists v, out = <["nll_loss" := v]> agg).
  { destruct (py_ne (PNum ss) n); [|left; congruence].
    destruct n as [y|]; [|done].
    destruct (Qeq_bool y 0); [done|]. simpl in H.
    injection H as <-. right. by eexists. }
  clear H. cbv zeta in Hout.
  exists l, ss, n, ns.
  destruct Hout as [->|[v ->]]; split_and!; try done;
    try (by simplify_map_eq);
    intros k [w Hw]; apply elem_of_dom_2 in Hw;
    rewrite !dom_insert_L, dom_singleton_L in Hw;
    repeat (apply elem_of_union in Hw as [Hw|Hw]);
    apply elem_of_singleton in Hw; subst k;
    repeat first [apply list_elem_of_here | apply list_elem_of_further].
Qed.

Lemma toy_aggregate :
  aggregate_logging_outputs [flat_record 20 10 2 8] = Ok toy_agg_output.
Proof.
  rewrite (aggregate_logging_outputs_ok _ 20 10 (PNum 2) 8);
    [reflexivity | by_eval | by_eval | by_eval | by_eval
    | intros H; discriminate H | intros _ H; discriminate H].
Qed.

Lemma aggregate_logging_outputs_inv_witness :
  exists l ss n ns,
    get_logging_output [flat_record 20 10 2 8] "loss" = Ok (PNum l)
    /\ get_logging_output [flat_record 20 10 2 8] "sample_size"
       = Ok (PNum ss)
    /\ get_logging_output [flat_record 20 10 2 8] "ntokens" = Ok n
    /\ get_logging_output [flat_record 20 10 2 8] "nsentences" = Ok ns
    /\ ~ ss == 0
    /\ toy_agg_output !! "loss" = Some (PNum (l / ss / math_log2))
    /\ toy_agg_output !! "ntokens" = Some n
    /\ toy_agg_output !! "nsentences" = Some ns
    /\ toy_agg_output !! "sample_size" = Some (PNum ss)
    /\ forall k, is_Some (toy_agg_output !! k) ->
                 k ∈ ["loss"; "ntokens"; "nsentences"; "sample_size";
                      "nll_loss"].
Proof.
  exact (aggregate_logging_outputs_inv [flat_record 20 10 2 8]
           toy_agg_output toy_aggregate).
Defined.

(** With numeric statistics the division by zero happens exactly when
    the sample size or the token count is zero: a zero token count
    beside a non-zero sample size fails in the division for
    ["nll_loss"]. *)
Theorem aggregate_zero_division_iff los l n ns ss :
  get_logging_output los "loss" = Ok (PNum l) ->
  get_logging_output los "ntokens" = Ok (PNum n) ->
  get_logging_output los "nsentences" = Ok ns ->
  get_logging_output los "sample_size" = Ok (PNum ss) ->
  aggregate_logging_outputs los = Raise ZeroDivisionError
  <-> ss == 0 \/ n == 0.
Proof.
  intros Hl Hn Hns Hss. split.
  - intros Hraise.
    destruct (Qeq_dec ss 0) as [|Hss0]; [by left|].
    destruct (Qeq_dec n 0) as [|Hn0]; [by right|].
    rewrite (aggregate_logging_outputs_ok los l n ns ss) in Hraise
      by (try assumption; by intros _).
    cbv zeta in Hraise. by destruct (Qeq_bool ss n).
  - intros Hzero. unfold aggregate_logging_outputs.
    rewrite (bind_Ok _ _ _ Hl), (bind_Ok _ _ _ Hn), (bind_Ok _ _ _ Hns),
      (bind_Ok _ _ _ Hss).
    destruct (Qeq_dec ss 0) as [Hss0|Hss0].
    + by rewrite (bind_Raise _ _ _ (py_truediv_zero l ss Hss0)).
    + destruct Hzero as [|Hn0]; [done|].
      rewrite (bind_Ok _ _ _ (py_truediv_num l ss Hss0)).
      rewrite (bind_Ok _ _ _ (py_truediv_num _ _ math_log2_nonzero)).
      cbv zeta.
      assert (Hne : py_ne (PNum ss) (PNum n) = true).
      { apply py_ne_num. intros Heq. apply Hss0. by rewrite Heq. }
      rewrite Hne.
      by rewrite (bind_Raise _ _ _ (py_truediv_zero l n Hn0)).
Qed.

Lemma aggregate_zero_division_iff_witness :
  aggregate_logging_outputs [flat_record 20 0 2 8] = Raise ZeroDivisionError
  <-> 8 == 0 \/ 0 == 0.
Proof.
  apply (aggregate_zero_division_iff _ 20 0 (PNum 2) 8); by_eval.
Defined.


(** * Further properties of [_generate_translation] *)

Section Decoding.

Context {F : Framework}.

(** The [j]-th item of the generator, counted from batch row [i]. *)
Lemma yield_items_lookup t pad_idx hypos ids0 i j it :
  yielded (yield_items t pad_idx hypos i ids0) !! j = Some it ->
  ids0 !! j = Some (item_id it)
  /\ hypos !! (i + j)%nat = Some (item_hypos it)
  /\ exists row,
       select_row t (i + j) = Ok row
       /\ item_src it = strip_pad row pad_idx.
Proof.
  revert i j. induction ids0 as [|x ids0 IH]; intros i j; simpl; [done|].
  destruct (select_row t i) as [row|] eqn:Hrow; simpl; [|done].
  destruct (hypos !! i) as [h|] eqn:Hh; simpl; [|done].
  destruct j as [|j]; simpl.
  - intros [= <-]. rewrite Nat.add_0_r. split; [done|]. split; [done|].
    by exists row.
  - intros Hj. destruct (IH (S i) j Hj) as (H1 & H2 & H3).
    by rewrite <- Nat.add_succ_comm.
Qed.

Lemma yield_items_ids t pad_idx hypos ids0 i :
  stops (yield_items t pad_idx hypos i ids0) ->
  map item_id (yielded (yield_items t pad_idx hypos i ids0)) = ids0.
Proof.
  revert i. induction ids0 as [|x ids0 IH]; intros i; simpl; [done|].
  destruct (select_row t i); simpl; [|done].
  destruct (hypos !! i); simpl; [|done].
  intros H. f_equal. by apply IH.
Qed.

Lemma select_row_Ok t n c rest i :
  shape t = n :: c :: rest ->
  (exists row, select_row t i = Ok row) <-> (i < n)%nat.
Proof.
  intros Hs. unfold select_row. rewrite Hs.
  destruct (decide (i < n)%nat); split; try done.
  - intros _. by eexists.
  - by intros [row ?].
Qed.

Lemma yield_items_stops_iff t n c rest pad_idx hypos ids0 i :
  shape t = n :: c :: rest ->
  stops (yield_items t pad_idx hypos i ids0)
  <-> ids0 = []
      \/ ((i + length ids0 <= n)%nat /\ (i + length ids0 <= length hypos)%nat).
Proof.
  intros Hs. revert i. induction ids0 as [|x ids0 IH]; intros i; simpl.
  - split; [by left|done].
  - pose proof (select_row_Ok t n c rest i Hs) as Hrow.
    destruct (select_row t i) as [row|] eqn:Er; simpl.
    + assert (i < n)%nat as Hin by (apply Hrow; by eexists).
      destruct (hypos !! i) as [h|] eqn:Eh; simpl.
      * apply lookup_lt_Some in Eh. rewrite IH. split.
        -- intros [->|[? ?]]; right; simpl; lia.
        -- intros [?|[? ?]]; [done|]. right. lia.
      * apply lookup_ge_None in Eh. split; [done|].
        intros [?|[? ?]]; [done|lia].
    + split; [done|]. intros [?|[? ?]]; [done|].
      assert (i < n)%nat as Hin by lia.
      apply Hrow in Hin as [? ?]. done.
Qed.

(** Every event of a decode is a decoder call. *)
Lemma generate_translation_calls self m d s :
  Forall (decoder_call_of self m d) (trace (generate_translation self m d s)).
Proof.
  pose proof (generate_translation_setup self m d s) as H.
  destruct (net_input s !! "src_tokens") as [t|] eqn:Ht;
    [|rewrite H; constructor].
  destruct (shape t !! 1%nat) as [c|] eqn:Hc; [|rewrite H; constructor].
  destruct (maxlen_of (self_args self) c) as [ml|e] eqn:Hml;
    [|rewrite H; constructor].
  rewrite (generate_translation_run self m d s t c ml Ht Hc Hml). simpl.
  repeat constructor. by eexists _, _.
Qed.



(** The [j]-th item a decode yields is made of the [j]-th id of the
    batch, the [j]-th row of ["src_tokens"] without its padding, and the
    [j]-th hypothesis list of the decoder. *)
Theorem generate_translation_yields self m d s g j it :
  outcome (generate_translation self m d s) = Ok g ->
  yielded g !! j = Some it ->
  ids s !! j = Some (item_id it)
  /\ (pad d ∉ item_src it)
  /\ exists t c ml row,
       net_input s !! "src_tokens" = Some t
       /\ shape t !! 1%nat = Some c
       /\ maxlen_of (self_args self) c = Ok ml
       /\ select_row t j = Ok row
       /\ item_src it = strip_pad row (pad d)
       /\ generate m d
            (filter
               (fun kv =>
                  kv.1 ∈ encoder_keys (use_char_source (self_task self)))
               (net_input s))
            (beam (self_args self)) ml !! j
          = Some (item_hypos it).
Proof.
  intros Hg Hj.
  destruct (generate_translation_inv _ _ _ _ _ Hg)
    as (t & c & ml & Ht & Hc & Hml & ->).
  apply yield_items_lookup in Hj as (Hid & Hh & row & Hrow & Hsrc).
  simpl in Hh, Hrow. split; [done|]. split.
  - rewrite Hsrc. unfold strip_pad. rewrite list_elem_of_filter.
    by intros [? _].
  - by exists t, c, ml, row.
Qed.

(** The generator runs to its end exactly when ["src_tokens"] has a row
    and the decoder a hypothesis list for every id of the batch;
    otherwise it raises after the items it could yield. *)
Theorem generate_translation_stops self m d s g :
  outcome (generate_translation self m d s) = Ok g ->
  exists t n c rest ml,
    net_input s !! "src_tokens" = Some t
    /\ shape t = n :: c :: rest
    /\ maxlen_of (self_args self) c = Ok ml
    /\ (stops g
        <-> (length (ids s) <= n)%nat
            /\ (length (ids s)
                <= length
                     (generate m d
                        (filter
                           (fun kv =>
                              kv.1 ∈ encoder_keys
                                       (use_char_source (self_task self)))
                           (net_input s))
                        (beam (self_args self)) ml))%nat).
Proof.
  intros Hg.
  destruct (generate_translation_inv _ _ _ _ _ Hg)
    as (t & c & ml & Ht & Hc & Hml & ->).
  destruct (shape t) as [|n [|c' rest]] eqn:Hs; try done.
  simpl in Hc. injection Hc as ->.
  exists t, n, c, rest, ml. split; [done|]. split; [done|].
  split; [done|].
  rewrite (yield_items_stops_iff t n c rest _ _ _ 0 Hs). simpl.
  split.
  - intros [->|?]; [simpl; lia|done].
  - intros ?. by right.
Qed.

End Decoding.


Example generate_translation_no_tokens :
  iteration_failure
    (generate_translation (F := toy) toy_self FwdGood toy_dict
       toy_batch_no_tokens)
  = Some KeyError
  /\ iteration_failure
       (generate_translation (F := toy) toy_self FwdGood toy_dict
          toy_batch_flat_tokens)
     = Some IndexError.
Proof. split; by_eval. Qed.

(** * Further properties of [forward] *)

Section Training.

Context {F : Framework}.

(** ** Traces *)

Lemma for_gen_trace_Forall {A S} (body : A -> S -> M S)
    (P : event -> Prop) :
  (forall a s, Forall P (trace (body a s))) ->
  forall g s, Forall P (trace (for_gen g body s)).
Proof.
  intros Hbody g. induction g as [|a rest IH|e]; intros s; simpl.
  - constructor.
  - rewrite trace_bind. destruct (outcome (body a s)); [|done].
    apply Forall_app. split; [done|apply IH].
  - constructor.
Qed.

Lemma for_gen_trace_steps {A S} (body : A -> S -> M S)
    (P : event -> Prop) :
  (forall a s s',
      outcome (body a s) = Ok s' ->
      exists e, trace (body a s) = [e] /\ P e) ->
  forall g s s',
    outcome (for_gen g body s) = Ok s' ->
    Forall P (trace (for_gen g body s))
    /\ length (trace (for_gen g body s)) = length (yielded g).
Proof.
  intros Hbody g. induction g as [|a rest IH|e]; intros s s'; simpl.
  - intros _. split; [constructor|done].
  - rewrite outcome_bind, trace_bind.
    destruct (outcome (body a s)) as [s1|] eqn:Hs1; [|done].
    intros Hrest. destruct (Hbody a s s1 Hs1) as (e & -> & He).
    destruct (IH s1 s' Hrest) as [H1 H2]. simpl.
    split; [by constructor|by rewrite H2].
  - done.
Qed.

Lemma add_reconstructions_trace original_src g pairs :
  trace (for_gen g (add_reconstruction original_src) pairs) = [].
Proof.
  revert pairs. induction g as [|[[id src] hs] rest IH|e]; intros pairs;
    simpl; [done| |done].
  rewrite trace_bind. destruct hs as [|x hs]; simpl; [done|]. apply IH.
Qed.

(** The backward decode calls the decoder for the backward model and
    the source vocabulary, once when it ends normally. *)
Lemma backward_reward_of_calls self bm sd b :
  Forall (decoder_call_of self bm sd)
    (trace (backward_reward_of self bm sd b))
  /\ (forall br,
        outcome (backward_reward_of self bm sd b) = Ok br ->
        exists e,
          trace (backward_reward_of self bm sd b) = [e]
          /\ decoder_call_of self bm sd e).
Proof.
  unfold backward_reward_of.
  pose proof (generate_translation_calls self bm sd
                (collate [b] (pad sd) (eos sd))) as Hcalls.
  rewrite trace_bind, outcome_bind.
  destruct (outcome (generate_translation self bm sd _)) as [g|] eqn:Hg.
  - rewrite trace_bind, outcome_bind, add_reconstructions_trace.
    destruct (generate_translation_inv _ _ _ _ _ Hg)
      as (t & c & ml & Ht & Hc & Hml & _).
    rewrite (generate_translation_run self bm sd _ t c ml Ht Hc Hml) in *.
    simpl in *.
    destruct (outcome (for_gen _ _ _)); simpl.
    + split; [done|]. intros br _. eexists. split; [done|].
      by inversion Hcalls.
    + split; [done|]. done.
  - split; [done|]. done.
Qed.

Lemma reward_step_calls self td bm sd it st :
  Forall (decoder_call_of self bm sd) (trace (reward_step self td bm sd it st))
  /\ (forall st',
        outcome (reward_step self td bm sd it st) = Ok st' ->
        exists e,
          trace (reward_step self td bm sd it st) = [e]
          /\ decoder_call_of self bm sd e).
Proof.
  destruct it as [[id src] hypos], st as [fs bs].
  destruct (make_backward_sample self (eos td) (id, src, hypos))
    as [b|e] eqn:Hb.
  - destruct (make_backward_sample_inv _ _ _ _ _ _ Hb)
      as (h & hs & t & -> & _ & _).
    destruct (reward_step_run self td bm sd id src h hs fs bs b Hb)
      as [Htr Ho].
    rewrite Htr, Ho.
    destruct (backward_reward_of_calls self bm sd b) as [H1 H2].
    split; [done|]. intros st' Hst.
    destruct (outcome (backward_reward_of self bm sd b)) as [br|] eqn:Hbr;
      [|done].
    by apply (H2 br).
  - rewrite (reward_step_no_sample _ _ _ _ _ _ e Hb). simpl.
    split; [constructor|done].
Qed.

(** ** The samples of a loop that ends normally *)

Lemma reward_loop_samples self s fm td bm sd fs bs :
  outcome (reward_loop self s fm td bm sd) = Ok (fs, bs) ->
  exists g,
    outcome (generate_translation self fm td s) = Ok g
    /\ stops g
    /\ Forall3 (built_from self td bm sd) (yielded g) fs bs.
Proof.
  unfold reward_loop. rewrite outcome_bind.
  destruct (outcome (generate_translation self fm td s)) as [g|] eqn:Hg;
    [|done].
  intros Hrun. exists g. split; [done|].
  pose (I := fun (seen : list item) (st : list sample * list sample) =>
     Forall3 (built_from self td bm sd) seen st.1 st.2).
  destruct (for_gen_invariant (reward_step self td bm sd) I) with
    (g := g) (seen := @nil item) (s := (@nil sample, @nil sample))
    (s' := (fs, bs)) as [H Hstop]; [| |done|done].
  - intros seen [[id src] hypos] [fs0 bs0] [fs1 bs1] HI Hstep.
    apply reward_step_inv in Hstep
      as (b & br & h & Hmk & Hbr & Htop & Hlast & -> & ->).
    unfold I in *. simpl in *. apply Forall3_app; [done|].
    constructor; [|constructor]. by exists h, br.
  - constructor.
Qed.

Lemma Forall3_Forall2_lm {A B C} (R : A -> B -> C -> Prop)
    (Q : A -> B -> Prop) l k k' :
  (forall x y z, R x y z -> Q x y) ->
  Forall3 R l k k' -> Forall2 Q l k.
Proof. intros HRQ. induction 1; constructor; eauto. Qed.

Lemma Forall3_Forall2_lr {A B C} (R : A -> B -> C -> Prop)
    (Q : A -> C -> Prop) l k k' :
  (forall x y z, R x y z -> Q x z) ->
  Forall3 R l k k' -> Forall2 Q l k'.
Proof. intros HRQ. induction 1; constructor; eauto. Qed.

Lemma Forall3_Forall2_mr {A B C} (R : A -> B -> C -> Prop)
    (Q : B -> C -> Prop) l k k' :
  (forall x y z, R x y z -> Q y z) ->
  Forall3 R l k k' -> Forall2 Q k k'.
Proof. intros HRQ. induction 1; constructor; eauto. Qed.

Lemma Forall2_map_eq {A B C} (f : A -> C) (g : B -> C) l k :
  Forall2 (fun x y => f x = g y) l k -> map f l = map g k.
Proof. induction 1; simpl; congruence. Qed.

(** ** What the loop builds *)

(** The backward sample cannot be built exactly when the decoder gave no
    hypothesis for the example or the source is empty once its padding
    is stripped; both are an [IndexError]. *)
Theorem make_backward_sample_raises self eos_index it e :
  make_backward_sample self eos_index it = Raise e
  <-> e = IndexError /\ (item_hypos it = [] \/ item_src it = []).
Proof.
  destruct it as [[id src] hypos].
  change (item_hypos (id, src, hypos)) with hypos.
  change (item_src (id, src, hypos)) with src.
  destruct hypos as [|h hs].
  - simpl. split; [intros [= <-]; by auto|by intros [-> _]].
  - destruct (last src) as [t|] eqn:Ht.
    + rewrite (make_backward_sample_run _ _ _ _ _ _ t Ht).
      split; [done|]. intros [_ [? | ->]]; done.
    + apply last_None in Ht. subst src. simpl.
      split; [intros [= <-]; by auto|by intros [-> _]].
Qed.

(** Both lists keep the ids of the batch, in the order of the batch. *)
Theorem reward_loop_ids self s fm td bm sd fs bs :
  outcome (reward_loop self s fm td bm sd) = Ok (fs, bs) ->
  map sample_id fs = ids s /\ map sample_id bs = ids s.
Proof.
  intros Hloop.
  destruct (reward_loop_samples _ _ _ _ _ _ _ _ Hloop)
    as (g & Hg & Hstop & Hall).
  destruct (generate_translation_inv _ _ _ _ _ Hg)
    as (t & c & ml & _ & _ & _ & ->).
  rewrite <- (yield_items_ids _ _ _ _ _ Hstop). split; symmetry.
  - apply Forall2_map_eq.
    eapply Forall3_Forall2_lm; [|exact Hall].
    intros it f b (h & br & _ & _ & _ & _ & ->). done.
  - apply Forall2_map_eq.
    eapply Forall3_Forall2_lr; [|exact Hall].
    intros [[id src] hypos] f b (h & br & Hb & _).
    apply make_backward_sample_inv in Hb as (? & ? & ? & _ & _ & ->).
    done.
Qed.

(** With [alpha] in [0,1] and a scorer that stays in [0,100], every
    forward sample handed to batch assembly has its weight in [0,1]. *)
Theorem reward_loop_weights self s fm td bm sd fs bs :
  0 <= alpha self <= 1 ->
  (forall pairs,
      0 <= bleu_score (pad sd) (eos sd) (unk sd) pairs 4 <= 100) ->
  outcome (reward_loop self s fm td bm sd) = Ok (fs, bs) ->
  Forall (fun f => 0 <= weights f <= 1) fs.
Proof.
  intros Halpha Hbleu Hloop.
  destruct (reward_loop_samples _ _ _ _ _ _ _ _ Hloop)
    as (g & _ & _ & Hall).
  assert (H2 : Forall2 (fun f (_ : sample) => 0 <= weights f <= 1) fs bs).
  { eapply Forall3_Forall2_mr; [|exact Hall].
    intros it f b (h & br & _ & Hbr & _ & _ & ->). simpl.
    destruct (backward_reward_of_inv _ _ _ _ _ Hbr) as [pairs ->].
    unfold total_reward_of, lm_score.
    by apply total_reward_bounds. }
  eapply Forall2_Forall_l; [exact H2|]. by apply Forall_true.
Qed.

(** The two samples of an example mirror each other: they carry the
    same id; the backward target is the forward source with the
    end-of-sequence token put at its end; the backward source is the
    forward target, the top hypothesis, stripped of its last token under
    [remove_eos_at_src], so that putting the end-of-sequence token back
    gives the forward target. *)
Theorem reward_loop_mirror self s fm td bm sd fs bs :
  outcome (reward_loop self s fm td bm sd) = Ok (fs, bs) ->
  Forall2
    (fun f b =>
       sample_id f = sample_id b
       /\ append_eos (source f) (eos td) = Ok (target b)
       /\ source b = strip_eos self (target f)
       /\ last (target f) = Some (eos td)
       /\ (remove_eos_at_src self = true ->
           target f = source b ++ [eos td]))
    fs bs.
Proof.
  intros Hloop.
  destruct (reward_loop_samples _ _ _ _ _ _ _ _ Hloop)
    as (g & _ & _ & Hall).
  eapply Forall3_Forall2_mr; [|exact Hall].
  intros [[id src] hypos] f b (h & br & Hb & _ & Htop & Hlast & ->).
  apply make_backward_sample_inv in Hb as (h' & hs & t & -> & Ht & ->).
  injection Htop as ->. simpl. split; [done|].
  split; [by apply append_eos_run|]. split; [done|]. split; [done|].
  intros Hflag. unfold strip_eos. rewrite Hflag.
  apply last_Some in Hlast as [l' ->]. by rewrite removelast_last.
Qed.

(** ** The calls of a training step *)

Lemma forward_trace_ok self s fm fo td bm bo sd fs bs :
  outcome (reward_loop self s fm td bm sd) = Ok (fs, bs) ->
  trace (forward self s fm fo td bm bo sd)
  = trace (reward_loop self s fm td bm sd)
    ++ training_calls fm fo td bm bo sd fs bs.
Proof.
  intros Hloop. unfold forward, training_calls.
  rewrite trace_bind, Hloop. cbv zeta.
  destruct (task_criterion fm _) as [[fl sf] lf].
  destruct (task_criterion bm _) as [[bl sb] lb].
  reflexivity.
Qed.

Lemma reward_loop_trace self s fm td bm sd :
  Forall (fun e => decoder_call_of self fm td e \/ decoder_call_of self bm sd e)
    (trace (reward_loop self s fm td bm sd))
  /\ (forall fs bs,
        outcome (reward_loop self s fm td bm sd) = Ok (fs, bs) ->
        exists first rest,
          trace (reward_loop self s fm td bm sd) = first :: rest
          /\ decoder_call_of self fm td first
          /\ Forall (decoder_call_of self bm sd) rest
          /\ length rest = length (ids s)).
Proof.
  unfold reward_loop. rewrite trace_bind, outcome_bind.
  pose proof (generate_translation_calls self fm td s) as Hfirst.
  destruct (outcome (generate_translation self fm td s)) as [g|] eqn:Hg.
  - destruct (generate_translation_inv _ _ _ _ _ Hg)
      as (t & c & ml & Ht & Hc & Hml & Hgen).
    rewrite (generate_translation_run self fm td s t c ml Ht Hc Hml)
      in Hfirst |- *.
    simpl in Hfirst |- *. inversion Hfirst as [|? ? Hcall _]; subst.
    split.
    + constructor; [by left|].
      eapply Forall_impl;
        [apply (for_gen_trace_Forall _ (decoder_call_of self bm sd))|].
      * intros a st. apply reward_step_calls.
      * intros ev ?. by right.
    + intros fs bs Hrun.
      destruct (for_gen_trace_steps (reward_step self td bm sd)
                  (decoder_call_of self bm sd)) with
        (g := yield_items t (pad td)
                (generate fm td
                   (filter
                      (fun kv =>
                         kv.1 ∈ encoder_keys
                                  (use_char_source (self_task self)))
                      (net_input s))
                   (beam (self_args self)) ml)
                0 (ids s))
        (s := (@nil sample, @nil sample)) (s' := (fs, bs))
        as [Hall Hlen]; [|done|].
      { intros a st st' Hst.
        by apply (proj2 (reward_step_calls self td bm sd a st) st'). }
      eexists _, _. split; [reflexivity|]. split; [done|].
      split; [done|]. rewrite Hlen. apply yield_items_stops.
      destruct (for_gen_invariant (reward_step self td bm sd)
                  (fun _ _ => True)) with
        (g := yield_items t (pad td)
                (generate fm td
                   (filter
                      (fun kv =>
                         kv.1 ∈ encoder_keys
                                  (use_char_source (self_task self)))
                      (net_input s))
                   (beam (self_args self)) ml)
                0 (ids s))
        (seen := @nil item) (s := (@nil sample, @nil sample))
        (s' := (fs, bs)) as [_ Hstop]; done.
  - split; [|done].
    eapply Forall_impl; [exact Hfirst|]. intros ev ?. by left.
Qed.

(** A training step that returns has called the decoder once for the
    forward model with the target vocabulary, then once per sentence of
    the batch for the backward model with the source vocabulary, and
    only then put each model in training mode, computed its loss on the
    collated samples and sent that loss to its optimizer, the forward
    model first. *)
Theorem forward_calls self s fm fo td bm bo sd r :
  outcome (forward self s fm fo td bm bo sd) = Ok r ->
  exists fs bs first rest,
    outcome (reward_loop self s fm td bm sd) = Ok (fs, bs)
    /\ trace (forward self s fm fo td bm bo sd)
       = first :: rest ++ training_calls fm fo td bm bo sd fs bs
    /\ decoder_call_of self fm td first
    /\ Forall (decoder_call_of self bm sd) rest
    /\ length rest = length (ids s).
Proof.
  intros Hr.
  destruct (outcome (reward_loop self s fm td bm sd)) as [[fs bs]|e]
    eqn:Hloop.
  - destruct (proj2 (reward_loop_trace self s fm td bm sd) fs bs Hloop)
      as (first & rest & Htr & H1 & H2 & H3).
    exists fs, bs, first, rest. split; [done|].
    rewrite (forward_trace_ok _ _ _ _ _ _ _ _ _ _ Hloop), Htr.
    by split.
  - by rewrite (forward_raises _ _ _ fo _ _ bo _ _ Hloop) in Hr.
Qed.

(** When the loop of a training step raises, be it that a sample could
    not be built or decoded or that the end-of-sequence check failed,
    the step ends there with that exception: the calls it has made are
    the loop's, all of them calls of the decoder, and no model has been
    put in training mode, no loss computed and no optimizer called. *)
Theorem forward_raise_calls self s fm fo td bm bo sd e :
  outcome (reward_loop self s fm td bm sd) = Raise e ->
  outcome (forward self s fm fo td bm bo sd) = Raise e
  /\ trace (forward self s fm fo td bm bo sd)
     = trace (reward_loop self s fm td bm sd)
  /\ Forall is_decoder_call (trace (forward self s fm fo td bm bo sd)).
Proof.
  intros Hloop. split; [by apply forward_raises|].
  assert (Htr : trace (forward self s fm fo td bm bo sd)
                = trace (reward_loop self s fm td bm sd)).
  { unfold forward. by rewrite trace_bind, Hloop. }
  split; [done|]. rewrite Htr.
  eapply Forall_impl;
    [apply (proj1 (reward_loop_trace self s fm td bm sd))|].
  intros ev [(? & ? & ->)|(? & ? & ->)]; exact I.
Qed.

(** A batch without sentences is decoded once and yields nothing: the
    loop builds no sample, no backward decode is made, and both losses
    are computed on the collation of no samples.  (When the float for
    the maximum length has no integer, the step raises before any
    call.) *)
Theorem forward_empty_batch self s fm fo td bm bo sd t c :
  ids s = [] ->
  net_input s !! "src_tokens" = Some t ->
  shape t !! 1%nat = Some c ->
  match maxlen_of (self_args self) c with
  | Ok _ =>
      outcome (reward_loop self s fm td bm sd) = Ok ([], [])
      /\ exists first,
           decoder_call_of self fm td first
           /\ trace (forward self s fm fo td bm bo sd)
              = first :: training_calls fm fo td bm bo sd [] []
  | Raise e =>
      outcome (forward self s fm fo td bm bo sd) = Raise e
      /\ trace (forward self s fm fo td bm bo sd) = []
  end.
Proof.
  intros Hids Ht Hc.
  destruct (maxlen_of (self_args self) c) as [ml|e] eqn:Hml.
  - assert (Hloop : reward_loop self s fm td bm sd
                    = MkM [Generate fm td
                             (filter
                                (fun kv =>
                                   kv.1 ∈ encoder_keys
                                            (use_char_source
                                               (self_task self)))
                                (net_input s))
                             (beam (self_args self)) ml]
                        (Ok ([], []))).
    { unfold reward_loop.
      rewrite (generate_translation_run self fm td s t c ml Ht Hc Hml), Hids.
      reflexivity. }
    split; [by rewrite Hloop|].
    eexists. split; [|rewrite (forward_trace_ok _ _ _ _ _ _ _ _ [] []);
                       [by rewrite Hloop|by rewrite Hloop]].
    by eexists _, _.
  - pose proof (generate_translation_setup self fm td s) as H.
    rewrite Ht, Hc, Hml in H.
    assert (Hloop : reward_loop self s fm td bm sd = raise e).
    { unfold reward_loop. by rewrite H. }
    unfold forward. by rewrite Hloop.
Qed.


End Training.

(** * The further properties on the small framework *)

Lemma toy_generate_translation_good :
  outcome (generate_translation (F := toy) toy_self FwdGood toy_dict
             toy_batch)
  = Ok (GYield toy_item_good
          (GYield (1%Z, [4; 5]%Z, toy_item_good.2) GStop)).
Proof. by_eval. Qed.

Lemma toy_bleu_bounds pairs :
  0 <= bleu_score (Framework := toy) (pad toy_dict) (eos toy_dict)
         (unk toy_dict) pairs 4 <= 100.
Proof.
  simpl. unfold toy_bleu. destruct (forallb _ pairs); split;
    intros H; discriminate H.
Qed.

Lemma toy_forward_returns :
  outcome (forward (F := toy) toy_self toy_batch FwdGood tt toy_dict Bwd tt
             toy_dict)
  = Ok (let '(forward_loss, size_f, log_f) :=
          task_criterion (Framework := toy) FwdGood
            (collate (Framework := toy) toy_forward_samples (pad toy_dict)
               (eos toy_dict)) in
        let '(backward_loss, size_b, log_b) :=
          task_criterion (Framework := toy) Bwd
            (collate (Framework := toy) toy_backward_samples (pad toy_dict)
               (eos toy_dict)) in
        (0 + forward_loss + backward_loss, 0 + size_f + size_b,
         PDict (<["dual" := log_b]> (<["primal" := log_f]> ∅)))).
Proof. exact (forward_returns (F := toy) _ _ _ _ _ _ _ _ _ _
                toy_reward_loop_good). Qed.

Lemma generate_translation_yields_witness :
  ids toy_batch !! 1%nat = Some (item_id (1%Z, [4; 5]%Z, toy_item_good.2))
  /\ (pad toy_dict ∉ item_src (1%Z, [4; 5]%Z, toy_item_good.2))
  /\ exists t c ml row,
       net_input toy_batch !! "src_tokens" = Some t
       /\ shape t !! 1%nat = Some c
       /\ maxlen_of (self_args toy_self) c = Ok ml
       /\ select_row t 1 = Ok row
       /\ item_src (1%Z, [4; 5]%Z, toy_item_good.2)
          = strip_pad row (pad toy_dict)
       /\ generate (Framework := toy) FwdGood toy_dict
            (filter
               (fun kv =>
                  kv.1 ∈ encoder_keys
                           (use_char_source (self_task toy_self)))
               (net_input toy_batch))
            (beam (self_args toy_self)) ml !! 1%nat
          = Some (item_hypos (1%Z, [4; 5]%Z, toy_item_good.2)).
Proof.
  apply (generate_translation_yields (F := toy) toy_self FwdGood toy_dict
           toy_batch
           (GYield toy_item_good
              (GYield (1%Z, [4; 5]%Z, toy_item_good.2) GStop))).
  - exact toy_generate_translation_good.
  - reflexivity.
Defined.

Lemma generate_translation_stops_witness :
  exists t n c rest ml,
    net_input toy_batch !! "src_tokens" = Some t
    /\ shape t = n :: c :: rest
    /\ maxlen_of (self_args toy_self) c = Ok ml
    /\ (stops (GYield toy_item_good
                 (GYield (1%Z, [4; 5]%Z, toy_item_good.2) GStop))
        <-> (length (ids toy_batch) <= n)%nat
            /\ (length (ids toy_batch)
                <= length
                     (generate (Framework := toy) FwdGood toy_dict
                        (filter
                           (fun kv =>
                              kv.1 ∈ encoder_keys
                                       (use_char_source
                                          (self_task toy_self)))
                           (net_input toy_batch))
                        (beam (self_args toy_self)) ml))%nat).
Proof.
  apply (generate_translation_stops (F := toy) toy_self FwdGood toy_dict
           toy_batch).
  exact toy_generate_translation_good.
Defined.

Lemma reward_loop_ids_witness :
  map sample_id toy_forward_samples = ids toy_batch
  /\ map sample_id toy_backward_samples = ids toy_batch.
Proof.
  apply (reward_loop_ids (F := toy) toy_self toy_batch FwdGood toy_dict Bwd
           toy_dict).
  exact toy_reward_loop_good.
Defined.

Lemma reward_loop_weights_witness :
  Forall (fun f => 0 <= weights f <= 1) toy_forward_samples.
Proof.
  apply (reward_loop_weights (F := toy) toy_self toy_batch FwdGood toy_dict
           Bwd toy_dict toy_forward_samples toy_backward_samples).
  - split; intros H; discriminate H.
  - exact toy_bleu_bounds.
  - exact toy_reward_loop_good.
Defined.

Lemma reward_loop_mirror_witness :
  Forall2
    (fun f b =>
       sample_id f = sample_id b
       /\ append_eos (source f) (eos toy_dict) = Ok (target b)
       /\ source b = strip_eos toy_self (target f)
       /\ last (target f) = Some (eos toy_dict)
       /\ (remove_eos_at_src toy_self = true ->
           target f = source b ++ [eos toy_dict]))
    toy_forward_samples toy_backward_samples.
Proof.
  apply (reward_loop_mirror (F := toy) toy_self toy_batch FwdGood toy_dict
           Bwd toy_dict).
  exact toy_reward_loop_good.
Defined.

Lemma forward_calls_witness :
  exists fs bs first rest,
    outcome (reward_loop (F := toy) toy_self toy_batch FwdGood toy_dict Bwd
               toy_dict) = Ok (fs, bs)
    /\ trace (forward (F := toy) toy_self toy_batch FwdGood tt toy_dict Bwd
                tt toy_dict)
       = first :: rest
         ++ training_calls (F := toy) FwdGood tt toy_dict Bwd tt toy_dict
              fs bs
    /\ decoder_call_of (F := toy) toy_self FwdGood toy_dict first
    /\ Forall (decoder_call_of (F := toy) toy_self Bwd toy_dict) rest
    /\ length rest = length (ids toy_batch).
Proof.
  exact (forward_calls (F := toy) toy_self toy_batch FwdGood tt toy_dict
           Bwd tt toy_dict _ toy_forward_returns).
Defined.

Lemma toy_reward_loop_bad :
  outcome (reward_loop (F := toy) toy_self toy_batch FwdBad toy_dict Bwd
             toy_dict)
  = Raise AssertionError.
Proof. by_eval. Qed.

Lemma forward_raise_calls_witness :
  outcome (forward (F := toy) toy_self toy_batch FwdBad tt toy_dict Bwd tt
             toy_dict) = Raise AssertionError
  /\ trace (forward (F := toy) toy_self toy_batch FwdBad tt toy_dict Bwd tt
              toy_dict)
     = trace (reward_loop (F := toy) toy_self toy_batch FwdBad toy_dict Bwd
                toy_dict)
  /\ Forall (is_decoder_call (F := toy))
       (trace (forward (F := toy) toy_self toy_batch FwdBad tt toy_dict Bwd
                 tt toy_dict)).
Proof.
  exact (forward_raise_calls (F := toy) toy_self toy_batch FwdBad tt
           toy_dict Bwd tt toy_dict AssertionError toy_reward_loop_bad).
Defined.

Lemma forward_empty_batch_witness :
  outcome (reward_loop (F := toy) toy_self toy_batch_empty FwdGood toy_dict
             Bwd toy_dict) = Ok ([], [])
  /\ exists first,
       decoder_call_of (F := toy) toy_self FwdGood toy_dict first
       /\ trace (forward (F := toy) toy_self toy_batch_empty FwdGood tt
                   toy_dict Bwd tt toy_dict)
          = first :: training_calls (F := toy) FwdGood tt toy_dict Bwd tt
                       toy_dict [] [].
Proof.
  pose proof (forward_empty_batch (F := toy) toy_self toy_batch_empty
                FwdGood tt toy_dict Bwd tt toy_dict
                (Tensor [0%nat; 0%nat] []) 0 eq_refl) as H.
  change (maxlen_of (self_args toy_self) 0) with (@Ok Z 0%Z) in H.
  apply H; [by_eval|reflexivity].
Defined.


(** * When the code raises *)

Lemma sum_items_raise key (l : list (string * pyval)) e :
  foldr
    (uncurry (fun (_ : string) log acc =>
                s ← acc; t ← nested_term key log; py_add s t))
    (Ok (PNum 0)) l
  = Raise e ->
  e = TypeError /\ exists k v, (k, v) ∈ l /\ not_summable key v.
Proof.
  induction l as [|[k log] l IH]; simpl; [done|].
  destruct (sum_items_outcome key l) as [[q Hq]|Hq]; rewrite Hq in *.
  - simpl. destruct log as [x|d']; simpl.
    + intros [= <-]. split; [done|]. exists k, (PNum x).
      split; [apply list_elem_of_here|done].
    + destruct (d' !! key) as [[y|d'']|] eqn:Hk; simpl; try done.
      intros [= <-]. split; [done|]. exists k, (PDict d').
      split; [apply list_elem_of_here|]. by exists d''.
  - simpl. intros [= <-].
    destruct (IH eq_refl) as (_ & k' & v & Hin & Hbad).
    split; [done|]. exists k', v. split; [by apply list_elem_of_further|done].
Qed.

(** The three ways the inner function [get_logging_output] fails: an
    [IndexError] on no record at all, an [AttributeError] when the first
    record is not a dictionary, and a [TypeError] when the key is missing
    from the first record and one of its values is a number or holds a
    record under the key. *)
Theorem get_logging_output_raises los key e :
  get_logging_output los key = Raise e ->
  (e = IndexError /\ los = [])
  \/ (e = AttributeError /\ exists q rest, los = PNum q :: rest)
  \/ (e = TypeError
      /\ exists d rest k v,
           los = PDict d :: rest
           /\ d !! key = None
           /\ d !! k = Some v
           /\ not_summable key v).
Proof.
  destruct los as [|[q|d] rest]; simpl.
  - intros [= <-]. by left.
  - intros [= <-]. right. left. split; [done|]. by exists q, rest.
  - unfold get_logging_output. simpl.
    destruct (d !! key) as [v|] eqn:Hkey; [done|].
    rewrite map_fold_foldr. intros Hsum.
    apply sum_items_raise in Hsum as (-> & k & v & Hin & Hbad).
    right. right. split; [done|]. exists d, rest, k, v.
    split_and!; try done. by apply elem_of_map_to_list.
Qed.

Lemma get_logging_output_raises_witness :
  (TypeError = IndexError /\ [flat_record 20 10 2 8] = [])
  \/ (TypeError = AttributeError
      /\ exists q rest, [flat_record 20 10 2 8] = PNum q :: rest)
  \/ (TypeError = TypeError
      /\ exists d rest k v,
           [flat_record 20 10 2 8] = PDict d :: rest
           /\ d !! "nll_loss" = None
           /\ d !! k = Some v
           /\ not_summable "nll_loss" v).
Proof.
  apply (get_logging_output_raises [flat_record 20 10 2 8] "nll_loss"
           TypeError).
  by_eval.
Defined.

Section Raising.

Context {F : Framework}.

(** A top hypothesis without any token is not caught by the assertion:
    the backward sample gets an empty source and is decoded, and the
    check of the last token raises [IndexError]. *)
Theorem reward_step_empty_hypothesis
    self td bm sd id src h hs fs bs b br :
  tokens h = [] ->
  make_backward_sample self (eos td) (id, src, h :: hs) = Ok b ->
  outcome (backward_reward_of self bm sd b) = Ok br ->
  source b = []
  /\ trace (reward_step self td bm sd (id, src, h :: hs) (fs, bs))
     = trace (backward_reward_of self bm sd b)
  /\ outcome (reward_step self td bm sd (id, src, h :: hs) (fs, bs))
     = Raise IndexError.
Proof.
  intros Hempty Hb Hbr.
  destruct (reward_step_run self td bm sd id src h hs fs bs b Hb)
    as [Htr Ho].
  rewrite Ho, Hbr, Hempty. split; [|done].
  apply make_backward_sample_inv in Hb as (h' & hs' & t & [= <- <-] & _ & ->).
  simpl. unfold strip_eos. rewrite Hempty. by destruct (remove_eos_at_src _).
Qed.

End Raising.

Lemma reward_step_empty_hypothesis_witness :
  source (Sample 0 [] [4; 5; 6; 2]%Z (1 - (1 # 2))) = []
  /\ trace (reward_step (F := toy) toy_self toy_dict Bwd toy_dict
              (0%Z, [4; 5; 6]%Z, Hypo [] 0 :: []) ([], []))
     = trace (backward_reward_of (F := toy) toy_self Bwd toy_dict
                (Sample 0 [] [4; 5; 6; 2]%Z (1 - (1 # 2))))
  /\ outcome (reward_step (F := toy) toy_self toy_dict Bwd toy_dict
                (0%Z, [4; 5; 6]%Z, Hypo [] 0 :: []) ([], []))
     = Raise IndexError.
Proof.
  apply (reward_step_empty_hypothesis (F := toy) toy_self toy_dict Bwd
           toy_dict 0%Z [4; 5; 6]%Z (Hypo [] 0) [] [] []
           (Sample 0 [] [4; 5; 6; 2]%Z (1 - (1 # 2))) (40 / 100)).
  - reflexivity.
  - by_eval.
  - by_eval.
Defined.
